(** * HermitShell agent control loop ([crab/agent.py])

    A shallow embedding of the agent's response parser, command risk
    classifier, approval gate and bounded conversation loop, followed by
    the properties of the written specification checked against it.

    Python text is a sequence of Unicode code points; decoded JSON is the
    usual tree of Python values; the filesystem is a finite set of paths;
    whatever the agent cannot control (the JSON decoder of the standard
    library, the model backend, the shell, other processes touching the
    marker files) enters as a parameter of the section it is used in. *)

From Stdlib Require Import ZArith NArith Ascii String Floats.SpecFloat.
From stdpp Require Import base option list gmap.

Local Open Scope N_scope.

(** ** Python text *)

Module Text.

(** A character is a code point, a [str] is the list of its characters. *)
Definition char := N.
Definition str := list char.

(** ASCII literals of the source, read as code points. *)
Definition lit (s : string) : str :=
  (λ a, N_of_ascii a) <$> list_ascii_of_string s.
Arguments lit : simpl never.

(** [str.isspace] for one character: the white space of CPython's
    [Py_UNICODE_ISSPACE], which [str.strip()] and [str.split()] use. *)
Definition isspace (c : char) : bool :=
  ((0x09 <=? c) && (c <=? 0x0D)) || ((0x1C <=? c) && (c <=? 0x20))
  || (c =? 0x85) || (c =? 0xA0) || (c =? 0x1680)
  || ((0x2000 <=? c) && (c <=? 0x200A))
  || (c =? 0x2028) || (c =? 0x2029) || (c =? 0x202F) || (c =? 0x205F)
  || (c =? 0x3000).

(** [s.lstrip()], [s.rstrip()], [s.strip()]. *)
Fixpoint lstrip (s : str) : str :=
  match s with
  | c :: s' => if isspace c then lstrip s' else s
  | [] => []
  end.

Fixpoint rstrip (s : str) : str :=
  match s with
  | c :: s' =>
      match rstrip s' with
      | [] => if isspace c then [] else [c]
      | r => c :: r
      end
  | [] => []
  end.

Definition strip (s : str) : str := rstrip (lstrip s).

(** [s.split()] with no separator: the maximal runs of characters that are
    not white space, in order.  [tok] holds the run being read. *)
Definition flush (tok : str) : list str :=
  match tok with [] => [] | _ => [tok] end.

Fixpoint split_from (tok : str) (s : str) : list str :=
  match s with
  | c :: s' =>
      if isspace c then flush tok ++ split_from [] s'
      else split_from (tok ++ [c]) s'
  | [] => flush tok
  end.

Definition split (s : str) : list str := split_from [] s.

(** [s.startswith(p)]. *)
Fixpoint startswith (s p : str) : bool :=
  match p, s with
  | [], _ => true
  | a :: p', b :: s' => (a =? b) && startswith s' p'
  | _ :: _, [] => false
  end.

(** [s == t] on text. *)
Definition eqb (s t : str) : bool := bool_decide (s = t).

End Text.
Export Text.

(** ** Python values and exceptions *)

(** What [json.loads] can return: [None], booleans, integers of any size,
    floats (IEEE doubles, in the Standard Library's [spec_float]), text,
    lists and dicts with text keys.  A dict is kept as the list of its
    items in insertion order, each key once. *)
#[local] Set Warnings "-register-all".
Inductive pyval : Type :=
  | PyNone
  | PyBool (b : bool)
  | PyInt (z : Z)
  | PyFloat (f : spec_float)
  | PyStr (s : str)
  | PyList (l : list pyval)
  | PyDict (d : list (str * pyval)).

(** The exceptions the modelled code can raise by itself. *)
Inductive exn : Type :=
  | AttributeError   (* a method that the value's type does not have *)
  | TypeError        (* e.g. iterating over a number *)
  | IndexError       (* [l[0]] on an empty list *)
  | FileNotFoundError. (* [os.remove] of a path that is not there *)

(** A pure computation that returns or raises. *)
Inductive res (A : Type) : Type :=
  | Ret (a : A)
  | Raise (e : exn).
Arguments Ret {A} a.
Arguments Raise {A} e.

Definition res_bind {A B} (m : res A) (k : A → res B) : res B :=
  match m with Ret a => k a | Raise e => Raise e end.

(** [bool(v)]: Python truthiness. *)
Definition truthy (v : pyval) : bool :=
  match v with
  | PyNone => false
  | PyBool b => b
  | PyInt z => negb (z =? 0)%Z
  | PyFloat (S754_zero _) => false
  | PyFloat _ => true
  | PyStr s => negb (bool_decide (s = []))
  | PyList l => negb (bool_decide (length l = 0%nat))
  | PyDict d => negb (bool_decide (length d = 0%nat))
  end.

(** Lookup in the items of a dict. *)
Fixpoint items_get (d : list (str * pyval)) (k : str) : option pyval :=
  match d with
  | (k', v) :: d' => if Text.eqb k' k then Some v else items_get d' k
  | [] => None
  end.

(** [data.get(k, default)]; only dicts have the method. *)
Definition py_get (data : pyval) (k : str) (dflt : pyval) : res pyval :=
  match data with
  | PyDict d => Ret (default dflt (items_get d k))
  | _ => Raise AttributeError
  end.

(** ** Command risk classifier *)

Definition dangerous_tools : list str :=
  lit <$> ["rm"; "sudo"; "su"; "shutdown"; "reboot"; "nmap"; "kill";
           "docker"; "spawn_agent"]%string.

(** The [for tool in dangerous_tools] loop with its early [return True]. *)
Fixpoint scan_tools (base : str) (tools : list str) : bool :=
  match tools with
  | tool :: rest =>
      if Text.eqb base tool || startswith base tool then true
      else scan_tools base rest
  | [] => false
  end.

(** [cmd.strip().split()[0] if cmd.strip() else ""]. *)
Definition base_of (cmd : str) : res str :=
  if truthy (PyStr (strip cmd)) then
    match split (strip cmd) with
    | tok :: _ => Ret tok
    | [] => Raise IndexError
    end
  else Ret [].

(** [is_dangerous(cmd)].  The argument is whatever the caller passes;
    [strip] is a method of text only. *)
Definition is_dangerous (cmd : pyval) : res bool :=
  match cmd with
  | PyStr cmd =>
      res_bind (base_of cmd) (λ base, Ret (scan_tools base dangerous_tools))
  | _ => Raise AttributeError
  end.

(** The first white-space delimited token of a command, the empty text
    when there is none. *)
Definition first_token (cmd : str) : str := hd [] (split cmd).


#[export] Instance res_ret : MRet res := @Ret.
#[export] Instance res_mbind : MBind res := λ A B k m, res_bind m k.

(** ** Response parser *)

(** Replies are written with ['] where the JSON text has a double quote. *)
Definition jlit (s : string) : str :=
  (λ c, if c =? 0x27 then 0x22 else c) <$> lit s.
Arguments jlit : simpl never.

Definition lbrace : char := 0x7B.
Definition rbrace : char := 0x7D.

(** A match object of [re]: where the match starts and the text matched. *)
Record Match := { m_start : nat; m_group : str }.

(** After an opening brace, the greedy [[\s\S]*\}]: every character up to
    and including the last closing brace of the text. *)
Fixpoint greedy_close (s : str) : option str :=
  match s with
  | c :: s' =>
      match greedy_close s' with
      | Some m => Some (c :: m)
      | None => if c =? rbrace then Some [c] else None
      end
  | [] => None
  end.

(** [re.search(r'\{[\s\S]*\}', s)]: the start positions are tried from the
    left, [pos] counting the characters already passed. *)
Fixpoint re_search_from (pos : nat) (s : str) : option Match :=
  match s with
  | c :: s' =>
      match (if c =? lbrace then greedy_close s' else None) with
      | Some m => Some {| m_start := pos; m_group := c :: m |}
      | None => re_search_from (S pos) s'
      end
  | [] => None
  end.

Definition re_search (s : str) : option Match := re_search_from 0 s.

Section parser.
(** [json.loads] of the standard library: [None] when it raises. *)
Variable json_loads : str → option pyval.

(** The bare [except] turns every decoding failure into [({}, None)]. *)
Definition extract_json_fields (response : str) : pyval * option str :=
  match re_search response with
  | None => (PyDict [], None)
  | Some json_match =>
      let json_str := m_group json_match in
      match json_loads json_str with
      | Some data => (data, Some json_str)
      | None => (PyDict [], None)
      end
  end.

(** Returns the pair [(terminal, None)] or [(None, None)]. *)
Definition extract_command (response : str) : res (pyval * pyval) :=
  let '(data, _) := extract_json_fields response in
  terminal ← py_get data (lit "terminal") (PyStr []);
  if truthy terminal then Ret (terminal, PyNone) else Ret (PyNone, PyNone).

Definition extract_panel_actions (response : str) : res pyval :=
  let '(data, _) := extract_json_fields response in
  panel_actions ← py_get data (lit "panelActions") (PyList []);
  match panel_actions with
  | PyList _ => Ret panel_actions
  | _ => Ret (PyList [])
  end.

Definition extract_user_id (response : str) : res pyval :=
  let '(data, _) := extract_json_fields response in
  py_get data (lit "userId") (PyStr []).

Definition extract_message (response : str) : res pyval :=
  let '(data, _) := extract_json_fields response in
  msg ← py_get data (lit "message") (PyStr []);
  if negb (truthy msg) then
    match re_search response with
    | Some json_match =>
        Ret (PyStr (strip (take (m_start json_match) response)))
    | None => Ret (PyStr (strip response))
    end
  else Ret msg.

Definition extract_action (response : str) : res pyval :=
  let '(data, _) := extract_json_fields response in
  py_get data (lit "action") (PyStr []).
End parser.

(** What the parser relies on from the decoder: a text that starts with an
    opening brace decodes to a dict, when it decodes at all. *)
Definition decodes_objects (json_loads : str → option pyval) : Prop :=
  ∀ s v, json_loads s = Some v → head s = Some lbrace → ∃ d, v = PyDict d.

(** ** The world the agent runs in *)

(** A line on standard output.  [Print parts] is [print] of an f-string:
    the [str()] of the parts, concatenated.  [PrintJson v] is
    [print(json.dumps(v))]. *)
Inductive Output : Type :=
  | Print (parts : list pyval)
  | PrintJson (v : pyval).

Record World := {
  fs : gset str;          (* the paths that exist *)
  stdout : list Output;   (* lines printed so far, oldest first *)
  slept : nat;            (* calls of [time.sleep(1)] so far *)
  calls : nat;            (* requests sent to the backend so far *)
  ran : list pyval;       (* commands handed to the shell, oldest first *)
}.

(** How a stateful computation ends: it returns, it raises, or the model
    ran out of [fuel] (shown below never to happen). *)
Inductive outcome (A : Type) : Type :=
  | Done (a : A) (w : World)
  | Fault (e : exn) (w : World)
  | OutOfFuel.
Arguments Done {A} a w.
Arguments Fault {A} e w.
Arguments OutOfFuel {A}.

Definition M (A : Type) : Type := World → outcome A.

#[export] Instance M_ret : MRet M := λ A a w, Done a w.
#[export] Instance M_bind : MBind M := λ A B k m w,
  match m w with
  | Done a w' => k a w'
  | Fault e w' => Fault e w'
  | OutOfFuel => OutOfFuel
  end.

Definition lift {A} (r : res A) : M A := λ w,
  match r with Ret a => Done a w | Raise e => Fault e w end.

Definition out_of_fuel {A} : M A := λ _, OutOfFuel.

(** The world after one more line on standard output, and after a path
    is removed. *)
Definition emit (o : Output) (w : World) : World :=
  {| fs := fs w; stdout := stdout w ++ [o];
     slept := slept w; calls := calls w; ran := ran w |}.

Definition unlink (p : str) (w : World) : World :=
  {| fs := fs w ∖ {[p]}; stdout := stdout w;
     slept := slept w; calls := calls w; ran := ran w |}.

Definition print (parts : list pyval) : M unit := λ w,
  Done () (emit (Print parts) w).

Definition print_json (v : pyval) : M unit := λ w,
  Done () (emit (PrintJson v) w).

(** [os.path.exists(p)]. *)
Definition path_exists (p : str) : M bool := λ w,
  Done (bool_decide (p ∈ fs w)) w.

(** [os.remove(p)]. *)
Definition os_remove (p : str) : M unit := λ w,
  if bool_decide (p ∈ fs w) then Done () (unlink p w)
  else Fault FileNotFoundError w.

(** What a run of [subprocess.run] comes to: it returns with the captured
    output, or raises an exception [e] with [str(e) = what] (the timeout
    of 120 seconds is one of them). *)
Inductive proc : Type :=
  | Completed (out : str)
  | Failed (what : str).

(** ** Approval gate *)

Definition lock_file : str := lit "/tmp/hermit_approval.lock".
Definition deny_file : str := lit "/tmp/hermit_deny.lock".

Definition text (s : string) : pyval := PyStr (lit s).

(** No marker is there to be seen. *)
Definition quiet (w : World) : Prop :=
  (lock_file ∉ fs w) ∧ (deny_file ∉ fs w).

Section gate.
(** What other processes do to the filesystem while the agent sleeps:
    [others n] is applied during the sleep that follows [n] earlier
    ones. *)
Variable others : nat → gset str → gset str.

(** [time.sleep(1)]. *)
Definition sleep_world (w : World) : World :=
  {| fs := others (slept w) (fs w); stdout := stdout w;
     slept := S (slept w); calls := calls w; ran := ran w |}.

Definition sleep1 : M unit := λ w, Done () (sleep_world w).

(** The world after [k] sleeps in a row. *)
Fixpoint sleeps (k : nat) (w : World) : World :=
  match k with
  | S k => sleeps k (sleep_world w)
  | O => w
  end.

(** The [while waited < 600] loop. *)
Fixpoint wait_loop (fuel : nat) (waited : nat) : M bool :=
  match fuel with
  | S fuel =>
      if (waited <? 600)%nat then
        approved ← path_exists lock_file;
        if approved : bool then
          _ ← os_remove lock_file;
          _ ← print [text "[HITL] Approved!"];
          mret true
        else
          denied ← path_exists deny_file;
          if denied : bool then
            _ ← os_remove deny_file;
            _ ← print [text "[HITL] Denied!"];
            mret false
          else
            _ ← sleep1;
            wait_loop fuel (waited + 1)
      else mret false
  | O => out_of_fuel
  end.

Definition wait_for_approval : M bool :=
  _ ← print [text "[HITL] Waiting for approval..."];
  wait_loop 601 0.
End gate.

(** ** Conversation loop *)

Definition max_iters : nat := 5.

(** A message of the conversation, [{"role": role, "content": content}]. *)
Definition msg (role : string) (content : str) : pyval :=
  PyDict [(lit "role", text role); (lit "content", PyStr content)].

(** [l.extend(v)]: the elements of a list, the characters of a text, the
    keys of a dict; other values cannot be iterated. *)
Definition py_extend (l : list pyval) (v : pyval) : res (list pyval) :=
  match v with
  | PyList xs => Ret (l ++ xs)
  | PyStr s => Ret (l ++ ((λ c, PyStr [c]) <$> s))
  | PyDict d => Ret (l ++ ((λ kv, PyStr kv.1) <$> d))
  | _ => Raise TypeError
  end.

(** How one pass of the loop body ends: [continue] (also by reaching the
    end of the body) or [break], with the messages as they are then. *)
Inductive flow : Type :=
  | Continue (messages : list pyval)
  | Break (messages : list pyval).

Definition no_output : str := lit "Command executed successfully with no output.".
Definition denial : pyval := msg "user" (lit "ERROR: Command denied by user").

(** The content of the message that the [try] block, or its handler,
    appends after a run. *)
Definition feedback (r : proc) : str :=
  match r with
  | Completed out =>
      let out := if negb (truthy (PyStr out)) then no_output else out in
      lit "[INTERNAL_COMMAND_OUTPUT]" ++ [0x0A] ++ out
  | Failed what => lit "ERROR executing command: " ++ what
  end.

Section agent.
Variable json_loads : str → option pyval.
Variable others : nat → gset str → gset str.
(** The reply of the backend to the [n]-th request (counting from 0),
    which carries the messages so far: the text that [call_llm] hands
    back, be it the proxy's [output] or [call_llm]'s own error text
    after a transport failure.  The transport itself is not modelled. *)
Variable backend : nat → list pyval → str.
(** The [n]-th run of the shell: what it comes to and what it leaves of
    the filesystem. *)
Variable shell : nat → pyval → gset str → proc * gset str.

(** The world after one more request, and after one more run. *)
Definition called (w : World) : World :=
  {| fs := fs w; stdout := stdout w; slept := slept w;
     calls := S (calls w); ran := ran w |}.

Definition shelled (cmd : pyval) (w : World) : World :=
  {| fs := (shell (length (ran w)) cmd (fs w)).2; stdout := stdout w;
     slept := slept w; calls := calls w; ran := ran w ++ [cmd] |}.

Definition call_llm (messages : list pyval) : M str := λ w,
  Done (backend (calls w) messages) (called w).

Definition subprocess_run (cmd : pyval) : M proc := λ w,
  Done (shell (length (ran w)) cmd (fs w)).1 (shelled cmd w).

(** The [try] block that executes the command; [except Exception]
    turns a failure into feedback, so either way one message is
    appended. *)
Definition execute (cmd : pyval) (messages : list pyval) : M (list pyval) :=
  r ← subprocess_run cmd;
  mret (messages ++ [msg "user" (feedback r)]).

(** The [else] branch: the reply is final.  ([output_parts] is built and
    never used.) *)
Definition emit_final (response : str) : M unit :=
  user_id ← lift (extract_user_id json_loads response);
  message ← lift (extract_message json_loads response);
  action ← lift (extract_action json_loads response);
  let '(json_fields, json_str) := extract_json_fields json_loads response in
  if truthy json_fields then
    panel ← lift (py_get json_fields (lit "panelActions") (PyList []));
    print_json (PyDict [(lit "userId", user_id);
                        (lit "message", message);
                        (lit "action", action);
                        (lit "terminal", PyStr []);
                        (lit "panelActions", panel)])
  else print [message].

(** One pass of the body of [while iters < max_iters].  (The scan of the
    reply for [COMMAND:] lines does nothing.) *)
Definition iteration (hitl_enabled : bool) (messages : list pyval) : M flow :=
  response ← call_llm messages;
  let messages := messages ++ [msg "assistant" response] in
  '(cmd, _) ← lift (extract_command json_loads response);
  if truthy cmd then
    dangerous ← lift (is_dangerous cmd);
    if dangerous && hitl_enabled then
      _ ← print [text "[HITL] APPROVAL_REQUIRED: "; cmd];
      approved ← wait_for_approval others;
      if negb approved then mret (Continue (messages ++ [denial]))
      else
        _ ← print [text "[HITL] EXECUTING: "; cmd];
        messages ← execute cmd messages;
        mret (Continue messages)
    else
      messages ← execute cmd messages;
      mret (Continue messages)
  else
    _ ← emit_final response;
    mret (Break messages).

Fixpoint main_loop (hitl_enabled : bool) (fuel : nat) (iters : nat)
    (messages : list pyval) : M (list pyval) :=
  match fuel with
  | S fuel =>
      if (iters <? max_iters)%nat then
        f ← iteration hitl_enabled messages;
        match f with
        | Continue messages =>
            main_loop hitl_enabled fuel (iters + 1) messages
        | Break messages => mret messages
        end
      else mret messages
  | O => out_of_fuel
  end.

(** [k] passes in a row that end in [continue] lead from the messages
    [m0] in the world [w0] to the messages [m] in the world [w]. *)
Inductive passes (hitl_enabled : bool) :
    nat → list pyval → World → list pyval → World → Prop :=
  | passes_O m w : passes hitl_enabled 0 m w m w
  | passes_S k m0 w0 m1 w1 m w :
      iteration hitl_enabled m0 w0 = Done (Continue m1) w1 →
      passes hitl_enabled k m1 w1 m w →
      passes hitl_enabled (S k) m0 w0 m w.

(** [main()], from the point where the environment has been read:
    [history] is the decoded [HISTORY], or [[]] when it is absent or
    does not decode. *)
Definition main (system_prompt user_msg : str) (history : pyval)
    (hitl_enabled : bool) : M (list pyval) :=
  messages ← lift (py_extend [msg "system" system_prompt] history);
  let messages := messages ++ [msg "user" user_msg] in
  main_loop hitl_enabled 6 0 messages.
End agent.

(** The world of a computation that ended. *)
Definition world_of {A} (o : outcome A) : option World :=
  match o with
  | Done _ w | Fault _ w => Some w
  | OutOfFuel => None
  end.

(** The progress lines of the approval gate and of the loop around it. *)
Definition is_progress (o : Output) : bool :=
  match o with
  | Print (PyStr s :: _) => startswith s (lit "[HITL] ")
  | _ => false
  end.

(** A world in which nothing has happened yet. *)
Definition fresh (files : gset str) : World :=
  {| fs := files; stdout := []; slept := 0; calls := 0; ran := [] |}.

(** ** A decoder to run the model on concrete replies

    [Json.loads] decodes the JSON texts made of objects, arrays, texts
    without escapes, integers and [true], [false], [null], and returns on
    them what [json.loads] returns; on every other text it answers [None].
    It stands for the library's decoder wherever a property is evaluated on
    a concrete reply. *)
Module Json.

Definition is_ws (c : char) : bool :=
  (c =? 0x20) || (c =? 0x09) || (c =? 0x0A) || (c =? 0x0D).

Fixpoint skip_ws (s : str) : str :=
  match s with
  | c :: s' => if is_ws c then skip_ws s' else s
  | [] => []
  end.

Definition is_digit (c : char) : bool := (0x30 <=? c) && (c <=? 0x39).

(** The body of a text, after its opening quote. *)
Fixpoint scan_string (acc s : str) : option (str * str) :=
  match s with
  | c :: s' =>
      if c =? 0x22 then Some (acc, s')
      else if (c =? 0x5C) || (c <? 0x20) then None
      else scan_string (acc ++ [c]) s'
  | [] => None
  end.

Fixpoint scan_digits (acc : Z) (s : str) : Z * str :=
  match s with
  | c :: s' =>
      if is_digit c then scan_digits (10 * acc + Z.of_N (c - 0x30)) s'
      else (acc, s)
  | [] => (acc, [])
  end.

Definition scan_number (s : str) : option (pyval * str) :=
  let '(neg, s1) :=
    match s with
    | c :: s' => if c =? 0x2D then (true, s') else (false, s)
    | [] => (false, [])
    end in
  '(z, rest) ←
    match s1 with
    | c :: s' =>
        if c =? 0x30 then Some (0%Z, s')
        else if is_digit c then Some (scan_digits 0 s1) else None
    | [] => None
    end;
  let v := PyInt (if neg : bool then - z else z) in
  match rest with
  | c :: _ => if (c =? 0x2E) || (c =? 0x65) || (c =? 0x45) then None
              else Some (v, rest)
  | [] => Some (v, [])
  end.

(** [d[k] = v] on the items of a dict. *)
Fixpoint items_set (d : list (str * pyval)) (k : str) (v : pyval) :
    list (str * pyval) :=
  match d with
  | (k', v') :: d' =>
      if Text.eqb k' k then (k', v) :: d' else (k', v') :: items_set d' k v
  | [] => [(k, v)]
  end.

(** What is being read: a value, the rest of an object from a key on, or
    the rest of an array from an element on. *)
Inductive mode : Type :=
  | Value
  | Members (acc : list (str * pyval))
  | Elements (acc : list pyval).

Fixpoint parse (fuel : nat) (m : mode) (s : str) : option (pyval * str) :=
  match fuel with
  | O => None
  | S fuel =>
      match m with
      | Value =>
          match s with
          | [] => None
          | c :: rest =>
              if c =? 0x22 then
                '(k, r) ← scan_string [] rest; Some (PyStr k, r)
              else if c =? lbrace then
                match skip_ws rest with
                | c' :: r =>
                    if c' =? rbrace then Some (PyDict [], r)
                    else parse fuel (Members []) (skip_ws rest)
                | [] => None
                end
              else if c =? 0x5B then
                match skip_ws rest with
                | c' :: r =>
                    if c' =? 0x5D then Some (PyList [], r)
                    else parse fuel (Elements []) (skip_ws rest)
                | [] => None
                end
              else if startswith s (lit "null") then Some (PyNone, drop 4 s)
              else if startswith s (lit "true") then
                Some (PyBool true, drop 4 s)
              else if startswith s (lit "false") then
                Some (PyBool false, drop 5 s)
              else scan_number s
          end
      | Members acc =>
          match s with
          | c :: rest =>
              if c =? 0x22 then
                '(k, r) ← scan_string [] rest;
                match skip_ws r with
                | c' :: r' =>
                    if c' =? 0x3A then
                      '(v, r'') ← parse fuel Value (skip_ws r');
                      let acc := items_set acc k v in
                      match skip_ws r'' with
                      | c'' :: r3 =>
                          if c'' =? rbrace then Some (PyDict acc, r3)
                          else if c'' =? 0x2C then
                            parse fuel (Members acc) (skip_ws r3)
                          else None
                      | [] => None
                      end
                    else None
                | [] => None
                end
              else None
          | [] => None
          end
      | Elements acc =>
          '(v, r) ← parse fuel Value s;
          let acc := acc ++ [v] in
          match skip_ws r with
          | c :: r' =>
              if c =? 0x5D then Some (PyList acc, r')
              else if c =? 0x2C then parse fuel (Elements acc) (skip_ws r')
              else None
          | [] => None
          end
      end
  end.

Definition loads (s : str) : option pyval :=
  '(v, rest) ← parse (S (length s)) Value (skip_ws s);
  match skip_ws rest with
  | [] => Some v
  | _ => None
  end.

End Json.

(** ** Concrete surroundings *)

(** Nobody else touches the filesystem. *)
Definition idle : nat → gset str → gset str := λ _ files, files.

(** A shell in which every command completes with the output [out] and
    leaves the filesystem alone. *)
Definition shell_says (out : str) : nat → pyval → gset str → proc * gset str :=
  λ _ _ files, (Completed out, files).

(** A backend that answers the [n]-th request with the [n]-th of the given
    replies, and with an empty text after the last. *)
Definition scripted (replies : list str) : nat → list pyval → str :=
  λ n _, default [] (replies !! n).

(** [isinstance(v, str)]. *)
Definition is_text (v : pyval) : bool :=
  match v with PyStr _ => true | _ => false end.
(** ** Facts about text *)

Section text_facts.
Implicit Types (s tok p : str) (c : char).

Lemma lstrip_nil_iff s : lstrip s = [] ↔ forallb isspace s = true.
Proof.
  induction s as [|c s IH]; simpl; [done|].
  destruct (isspace c); simpl; [done|]. split; discriminate.
Qed.

Lemma rstrip_nil_iff s : rstrip s = [] ↔ forallb isspace s = true.
Proof.
  induction s as [|c s IH]; simpl; [done|].
  destruct (rstrip s) as [|r rs].
  - destruct (isspace c); simpl; [tauto|]. split; discriminate.
  - rewrite andb_true_iff. split; [discriminate|].
    intros [_ H]. apply IH in H. discriminate.
Qed.

Lemma lstrip_head s c s' : lstrip s = c :: s' → isspace c = false.
Proof.
  induction s as [|a s IH]; simpl; [discriminate|].
  destruct (isspace a) eqn:Ha; [done|]. congruence.
Qed.

Lemma strip_nil_iff s : strip s = [] ↔ forallb isspace s = true.
Proof.
  unfold strip. rewrite rstrip_nil_iff, <- (lstrip_nil_iff s).
  destruct (lstrip s) as [|c s'] eqn:E; [by split|].
  apply lstrip_head in E. simpl. rewrite E. split; discriminate.
Qed.

Lemma split_from_nil_iff tok s :
  split_from tok s = [] ↔ tok = [] ∧ forallb isspace s = true.
Proof.
  revert tok. induction s as [|c s IH]; intros tok; simpl.
  - destruct tok; simpl; split; try done. intros [? _]; done.
  - destruct (isspace c); simpl.
    + rewrite app_nil, IH. destruct tok; simpl; split; try tauto.
      * intros [? _]; done.
      * intros [? _]; done.
    + rewrite IH. split; [|intros [_ ?]; done].
      intros [H _]. by destruct tok.
Qed.

Lemma split_nil_iff s : split s = [] ↔ strip s = [].
Proof. unfold split. rewrite split_from_nil_iff, strip_nil_iff. tauto. Qed.

Lemma split_from_lstrip s : split_from [] (lstrip s) = split_from [] s.
Proof.
  induction s as [|c s IH]; simpl; [done|].
  destruct (isspace c) eqn:E; simpl; [done|]. by rewrite E.
Qed.

Lemma split_from_rstrip tok s : split_from tok (rstrip s) = split_from tok s.
Proof.
  revert tok. induction s as [|c s IH]; intros tok; simpl; [done|].
  destruct (rstrip s) as [|r rs] eqn:E.
  - destruct (isspace c) eqn:Ec; simpl; rewrite ?Ec, <- IH; simpl.
    + by rewrite app_nil_r.
    + done.
  - change (split_from tok (c :: r :: rs)) with
      (if isspace c then flush tok ++ split_from [] (r :: rs)
       else split_from (tok ++ [c]) (r :: rs)).
    by rewrite !IH.
Qed.

(** Stripping first does not change the tokens. *)
Lemma split_strip s : split (strip s) = split s.
Proof. unfold split, strip. by rewrite split_from_rstrip, split_from_lstrip. Qed.

Lemma startswith_prefix s p : startswith s p = true ↔ p `prefix_of` s.
Proof.
  revert s. induction p as [|a p IH]; intros [|b s]; simpl.
  - split; [intros _; apply prefix_nil | done].
  - split; [intros _; apply prefix_nil | done].
  - split; [discriminate | intros H; by apply prefix_nil_not in H].
  - rewrite andb_true_iff, N.eqb_eq, IH. split.
    + intros [-> H]. by apply prefix_cons.
    + intros H. split; [by apply prefix_cons_inv_1 in H|by apply prefix_cons_inv_2 in H].
Qed.

Lemma eqb_eq s p : Text.eqb s p = true ↔ s = p.
Proof. unfold Text.eqb. apply bool_decide_eq_true. Qed.

(** The loop over the denylist finds an entry that the token starts with. *)
Lemma scan_tools_true base tools :
  scan_tools base tools = true ↔ ∃ tool, tool ∈ tools ∧ tool `prefix_of` base.
Proof.
  induction tools as [|t ts IH]; simpl.
  - split; [discriminate|]. intros (x & H & _). by apply elem_of_nil in H.
  - destruct (Text.eqb base t || startswith base t) eqn:E.
    + split; [|done]. intros _. exists t. split; [left|].
      apply orb_true_iff in E as [E|E].
      * apply eqb_eq in E. by subst.
      * by apply startswith_prefix.
    + rewrite IH. apply orb_false_iff in E as [_ E].
      split; intros (x & Hx & Hp).
      * exists x. split; [by right|done].
      * apply elem_of_cons in Hx as [->|Hx]; [|by exists x].
        apply startswith_prefix in Hp. congruence.
Qed.

(** The guard of [base_of] keeps the indexing in range. *)
Lemma base_of_first_token s : base_of s = Ret (first_token s).
Proof.
  unfold base_of, first_token. simpl. rewrite split_strip.
  destruct (strip s) eqn:E; simpl.
  - apply split_nil_iff in E. by rewrite E.
  - destruct (split s) eqn:E'; [|done].
    apply split_nil_iff in E'. congruence.
Qed.
End text_facts.

(** ** Classifier properties *)

(** C1, as the specification words it, fails in both directions: the
    one-letter command [r] is a prefix of the entry [rm] yet is not
    flagged, and [rmdir] is flagged although it neither equals nor is a
    prefix of any entry. *)
Lemma is_dangerous_not_prefix_of_entry :
  ((∃ tool, tool ∈ dangerous_tools ∧
      (first_token (lit "r") = tool ∨ first_token (lit "r") `prefix_of` tool))
   ∧ is_dangerous (PyStr (lit "r")) = Ret false)
  ∧ (is_dangerous (PyStr (lit "rmdir /tmp/x")) = Ret true
     ∧ ¬ ∃ tool, tool ∈ dangerous_tools ∧
          (first_token (lit "rmdir /tmp/x") = tool
           ∨ first_token (lit "rmdir /tmp/x") `prefix_of` tool)).
Proof.
  split; split.
  - exists (lit "rm"). split; [by left|]. right. by exists (lit "m").
  - reflexivity.
  - reflexivity.
  - intros (tool & Hin & H).
    assert (Hp : first_token (lit "rmdir /tmp/x") `prefix_of` tool)
      by (destruct H as [->|H]; done).
    apply startswith_prefix in Hp.
    vm_compute in Hin. vm_compute in Hp.
    repeat (apply elem_of_cons in Hin as [->|Hin]; [discriminate|]).
    by apply elem_of_nil in Hin.
Qed.

(** C1 (amended): the classifier is total on text and flags a command
    exactly when some denylist entry is a prefix of its first token (the
    token starts with the entry, equality included); blank commands are not
    flagged, commands whose first token is [rm], [sudo] or [docker] are,
    and [ls -la] is not. *)
Theorem is_dangerous_starts_with_entry (cmd : str) :
  (is_dangerous (PyStr cmd) = Ret true ↔
     ∃ tool, tool ∈ dangerous_tools ∧ tool `prefix_of` first_token cmd)
  ∧ (∃ b, is_dangerous (PyStr cmd) = Ret b)
  ∧ (forallb isspace cmd = true → is_dangerous (PyStr cmd) = Ret false)
  ∧ (first_token cmd ∈ [lit "rm"; lit "sudo"; lit "docker"] →
     is_dangerous (PyStr cmd) = Ret true)
  ∧ is_dangerous (PyStr (lit "ls -la")) = Ret false.
Proof.
  assert (Hd : is_dangerous (PyStr cmd)
               = Ret (scan_tools (first_token cmd) dangerous_tools))
    by (simpl; by rewrite base_of_first_token).
  rewrite Hd. repeat split.
  - intros [= H]. by apply scan_tools_true.
  - intros H. f_equal. by apply scan_tools_true.
  - eauto.
  - intros H. apply strip_nil_iff, split_nil_iff in H.
    unfold first_token. by rewrite H.
  - intros H. f_equal.
    repeat (apply elem_of_cons in H as [E|H]; [by rewrite E|]).
    by apply elem_of_nil in H.
Qed.

Lemma is_dangerous_starts_with_entry_witness :
  is_dangerous (PyStr (lit "sudo reboot")) = Ret true
  ∧ is_dangerous (PyStr (lit "  ")) = Ret false.
Proof.
  split.
  - destruct (is_dangerous_starts_with_entry (lit "sudo reboot"))
      as (_ & _ & _ & H & _).
    apply H, (bool_decide_unpack _). vm_compute. exact I.
  - destruct (is_dangerous_starts_with_entry (lit "  ")) as (_ & _ & H & _).
    apply H. reflexivity.
Defined.

(** ** Facts about the greedy span *)

Section regex_facts.
Implicit Types (s m pre mid post : str).

Lemma greedy_close_None s : greedy_close s = None ↔ rbrace ∉ s.
Proof.
  induction s as [|c s IH]; simpl.
  - split; [intros _; apply not_elem_of_nil | done].
  - rewrite not_elem_of_cons, <- IH.
    destruct (greedy_close s); [split; [done | intros [_ ?]; done]|].
    destruct (N.eqb_spec c rbrace) as [->|Hc]; split; try done.
    intros [? _]; done.
Qed.

Lemma greedy_close_Some s m :
  greedy_close s = Some m ↔
  ∃ mid post, s = mid ++ rbrace :: post ∧ m = mid ++ [rbrace] ∧ (rbrace ∉ post).
Proof.
  split.
  - revert m. induction s as [|c s IH]; intros m; simpl; [done|].
    destruct (greedy_close s) as [m'|] eqn:E.
    + intros [= <-]. destruct (IH m' eq_refl) as (mid & post & -> & -> & H).
      by exists (c :: mid), post.
    + destruct (N.eqb_spec c rbrace) as [->|Hc]; [|done].
      intros [= <-]. exists [], s. by apply greedy_close_None in E.
  - intros (mid & post & -> & -> & H).
    induction mid as [|a mid IH]; simpl.
    + apply greedy_close_None in H. rewrite H.
      by rewrite ?N.eqb_refl.
    + by rewrite IH.
Qed.

(** The match runs from the first opening brace to the last closing
    brace, whatever lies between. *)
Lemma re_search_from_Some pos s (jm : Match) :
  re_search_from pos s = Some jm ↔
  ∃ pre mid post,
    s = pre ++ lbrace :: (mid ++ rbrace :: post)
    ∧ (lbrace ∉ pre) ∧ (rbrace ∉ post)
    ∧ jm = {| m_start := pos + length pre;
              m_group := lbrace :: (mid ++ [rbrace]) |}.
Proof.
  split.
  - revert pos. induction s as [|c s IH]; intros pos; simpl; [done|].
    destruct (if c =? lbrace then greedy_close s else None) as [m|] eqn:E.
    + intros [= <-]. destruct (N.eqb_spec c lbrace) as [->|]; [|done].
      apply greedy_close_Some in E as (mid & post & -> & -> & H).
      exists [], mid, post. simpl. rewrite Nat.add_0_r.
      split_and!; [done | apply not_elem_of_nil | done | done].
    + intros H. destruct (IH _ H) as (pre & mid & post & -> & Hl & Hr & ->).
      exists (c :: pre), mid, post. simpl.
      split_and!; [done | | done | by rewrite Nat.add_succ_r].
      apply not_elem_of_cons. split; [|done]. intros <-.
      rewrite N.eqb_refl in E. apply greedy_close_None in E.
      apply E. rewrite elem_of_app, !elem_of_cons, elem_of_app, elem_of_cons.
      tauto.
  - intros (pre & mid & post & -> & Hl & Hr & ->). revert pos.
    induction pre as [|a pre IH]; intros pos; simpl.
    + rewrite ?N.eqb_refl.
      assert (greedy_close (mid ++ rbrace :: post) = Some (mid ++ [rbrace]))
        as -> by (apply greedy_close_Some; by exists mid, post).
      by rewrite Nat.add_0_r.
    + apply not_elem_of_cons in Hl as [Ha Hl].
      destruct (N.eqb_spec a lbrace) as [->|_]; [done|].
      rewrite IH by done. by rewrite Nat.add_succ_r.
Qed.

(** There is no match exactly when no opening brace has a closing brace
    somewhere after it. *)
Lemma re_search_None s :
  re_search s = None ↔
  ¬ ∃ pre mid post, s = pre ++ lbrace :: (mid ++ rbrace :: post).
Proof.
  unfold re_search. generalize 0%nat. split.
  - intros H (pre & mid & post & ->). revert n H.
    induction pre as [|a pre IH]; intros n; simpl.
    + rewrite ?N.eqb_refl.
      destruct (greedy_close (mid ++ rbrace :: post)) eqn:E; [done|].
      apply greedy_close_None in E. intros _. apply E.
      rewrite elem_of_app, elem_of_cons. tauto.
    + destruct (if a =? lbrace then _ else _); [done|]. apply IH.
  - intros H. destruct (re_search_from n s) as [jm|] eqn:E; [|done].
    apply re_search_from_Some in E as (pre & mid & post & -> & _).
    destruct H. by exists pre, mid, post.
Qed.

Lemma re_search_Some s jm :
  re_search s = Some jm →
  ∃ mid, m_group jm = lbrace :: (mid ++ [rbrace])
         ∧ (lbrace ∉ take (m_start jm) s)
         ∧ m_group jm `prefix_of` drop (m_start jm) s.
Proof.
  intros H. apply re_search_from_Some in H
    as (pre & mid & post & -> & Hl & Hr & ->). simpl.
  exists mid. rewrite take_app_length, drop_app_length.
  split_and!; try done. exists post. simpl. by rewrite <- app_assoc.
Qed.

(** Prose without an opening brace, then a text in braces: the match is
    that text. *)
Lemma re_search_prose prose body :
  lbrace ∉ prose →
  re_search (prose ++ lbrace :: (body ++ [rbrace]))
  = Some {| m_start := length prose; m_group := lbrace :: (body ++ [rbrace]) |}.
Proof.
  intros H. apply re_search_from_Some. exists prose, body, [].
  split_and!; [done | done | apply not_elem_of_nil | done].
Qed.
End regex_facts.

(** ** Facts about the parser *)

Lemma parse_members_dict fuel acc s v r :
  Json.parse fuel (Json.Members acc) s = Some (v, r) → ∃ d, v = PyDict d.
Proof.
  revert acc s. induction fuel as [|fuel IH]; intros acc s H; [done|].
  simpl in H. destruct s as [|c rest]; [done|].
  destruct (c =? 0x22); [|done].
  destruct (Json.scan_string [] rest) as [[k r1]|]; [|done]. simpl in H.
  destruct (Json.skip_ws r1) as [|c' r']; [done|].
  destruct (c' =? 0x3A); [|done].
  destruct (Json.parse fuel Json.Value (Json.skip_ws r')) as [[v1 r2]|];
    [|done]. simpl in H.
  destruct (Json.skip_ws r2) as [|c'' r3]; [done|].
  destruct (c'' =? rbrace); [injection H as <- _; eauto|].
  destruct (c'' =? 0x2C); [|done]. by eapply IH.
Qed.

(** The decoder used on concrete replies meets the parser's expectation. *)
Lemma loads_decodes_objects : decodes_objects Json.loads.
Proof.
  intros [|c s] v H Hh; [done|]. injection Hh as ->.
  unfold Json.loads in H.
  change (Json.skip_ws (lbrace :: s)) with (lbrace :: s) in H.
  destruct (Json.parse _ _ _) as [[v' r]|] eqn:E; [|done]. simpl in H.
  destruct (Json.skip_ws r); [|done]. injection H as ->.
  cbn [Json.parse] in E. change (lbrace =? 0x22) with false in E.
  change (lbrace =? lbrace) with true in E. cbv iota in E.
  destruct (Json.skip_ws s) as [|c' r']; [done|].
  destruct (c' =? rbrace); [injection E as <- _; eauto|].
  by eapply parse_members_dict.
Qed.

Section parser_facts.
Variable json_loads : str → option pyval.
Implicit Types (raw response : str) (d : list (str * pyval)).

Local Abbreviation fields := (extract_json_fields json_loads).

Lemma fields_no_match raw :
  re_search raw = None → fields raw = (PyDict [], None).
Proof. unfold extract_json_fields. by intros ->. Qed.

Lemma fields_decoded raw jm data :
  re_search raw = Some jm → json_loads (m_group jm) = Some data →
  fields raw = (data, Some (m_group jm)).
Proof. unfold extract_json_fields. by intros -> ->. Qed.

Lemma fields_undecoded raw jm :
  re_search raw = Some jm → json_loads (m_group jm) = None →
  fields raw = (PyDict [], None).
Proof. unfold extract_json_fields. by intros -> ->. Qed.

(** With a decoder that yields dicts for texts in braces, the parsed
    fields are always a dict, so that [data.get] is always there. *)
Lemma fields_dict raw :
  decodes_objects json_loads → ∃ d, (fields raw).1 = PyDict d.
Proof.
  intros Hloads. unfold extract_json_fields.
  destruct (re_search raw) as [jm|] eqn:E; [|by exists []].
  destruct (json_loads (m_group jm)) as [data|] eqn:El; [|by exists []].
  apply re_search_Some in E as (mid & Hg & _).
  apply (Hloads _ _ El). by rewrite Hg.
Qed.

(** Where [extract_command] returns, the fields were a dict. *)
Lemma extract_command_ret raw c :
  extract_command json_loads raw = Ret c → ∃ d o, fields raw = (PyDict d, o).
Proof.
  unfold extract_command. destruct (fields raw) as [data o].
  destruct data; simpl; try discriminate. eauto.
Qed.

Lemma extract_command_dict raw d o :
  fields raw = (PyDict d, o) →
  extract_command json_loads raw
  = Ret (let t := default (PyStr []) (items_get d (lit "terminal")) in
         if truthy t then (t, PyNone) else (PyNone, PyNone)).
Proof.
  unfold extract_command. intros ->. simpl. by destruct (truthy _).
Qed.

Lemma extract_message_dict raw d o :
  fields raw = (PyDict d, o) →
  extract_message json_loads raw
  = Ret (let m := default (PyStr []) (items_get d (lit "message")) in
         if truthy m then m
         else PyStr (strip (match re_search raw with
                            | Some jm => take (m_start jm) raw
                            | None => raw
                            end))).
Proof.
  unfold extract_message. intros ->. simpl.
  destruct (truthy _); simpl; [done|]. by destruct (re_search raw).
Qed.

Lemma extract_user_id_dict raw d o :
  fields raw = (PyDict d, o) →
  extract_user_id json_loads raw
  = Ret (default (PyStr []) (items_get d (lit "userId"))).
Proof. unfold extract_user_id. by intros ->. Qed.

Lemma extract_action_dict raw d o :
  fields raw = (PyDict d, o) →
  extract_action json_loads raw
  = Ret (default (PyStr []) (items_get d (lit "action"))).
Proof. unfold extract_action. by intros ->. Qed.

Lemma extract_panel_actions_dict raw d o :
  fields raw = (PyDict d, o) →
  ∃ l, extract_panel_actions json_loads raw = Ret (PyList l).
Proof.
  unfold extract_panel_actions. intros ->. simpl.
  destruct (default _ _); eauto.
Qed.
End parser_facts.

(** ** Facts about the approval gate *)

Local Open Scope nat_scope.

(** Unfolds the plumbing of the state monad. *)
Ltac run :=
  unfold mbind, M_bind, mret, M_ret, lift, print, print_json, path_exists,
    os_remove, sleep1, out_of_fuel; simpl.

Lemma markers_differ : lock_file ≠ deny_file.
Proof. by vm_compute. Qed.

Lemma fs_emit o w : fs (emit o w) = fs w.
Proof. reflexivity. Qed.

Lemma slept_emit o w : slept (emit o w) = slept w.
Proof. reflexivity. Qed.

Section gate_facts.
Variable others : nat → gset str → gset str.
Implicit Types (w : World) (k fuel waited : nat).

Local Abbreviation loop := (wait_loop others).
Local Abbreviation nap := (sleeps others).

Local Abbreviation approved_line := (Print [text "[HITL] Approved!"]).
Local Abbreviation denied_line := (Print [text "[HITL] Denied!"]).
Local Abbreviation waiting_line :=
  (Print [text "[HITL] Waiting for approval..."]).

Lemma wait_loop_approve fuel waited w :
  waited < 600 → lock_file ∈ fs w →
  loop (S fuel) waited w = Done true (emit approved_line (unlink lock_file w)).
Proof.
  intros Hw Hl. simpl. apply Nat.ltb_lt in Hw. rewrite Hw. run.
  by rewrite !bool_decide_eq_true_2.
Qed.

Lemma wait_loop_deny fuel waited w :
  waited < 600 → lock_file ∉ fs w → deny_file ∈ fs w →
  loop (S fuel) waited w = Done false (emit denied_line (unlink deny_file w)).
Proof.
  intros Hw Hl Hd. simpl. apply Nat.ltb_lt in Hw. rewrite Hw. run.
  rewrite bool_decide_eq_false_2 by done.
  by rewrite !bool_decide_eq_true_2.
Qed.

Lemma wait_loop_sleep fuel waited w :
  waited < 600 → quiet w →
  loop (S fuel) waited w = loop fuel (waited + 1) (sleep_world others w).
Proof.
  intros Hw [Hl Hd]. simpl. apply Nat.ltb_lt in Hw. rewrite Hw. run.
  by rewrite !bool_decide_eq_false_2.
Qed.

Lemma wait_loop_ceiling fuel waited w :
  600 ≤ waited → loop (S fuel) waited w = Done false w.
Proof.
  intros Hw. simpl. apply Nat.ltb_ge in Hw. by rewrite Hw.
Qed.

(** As long as no marker is seen the loop sleeps on. *)
Lemma wait_loop_skip k fuel waited w :
  waited + k ≤ 600 → (∀ j, j < k → quiet (nap j w)) →
  loop (k + fuel) waited w = loop fuel (waited + k) (nap k w).
Proof.
  revert waited w. induction k as [|k IH]; intros waited w Hk Hq.
  - simpl. by rewrite Nat.add_0_r.
  - change (S k + fuel) with (S (k + fuel)).
    rewrite wait_loop_sleep; [|lia|apply (Hq 0); lia].
    rewrite IH; [simpl; f_equal; lia | lia |].
    intros j Hj. apply (Hq (S j)). lia.
Qed.

Lemma nap_fields k w :
  stdout (nap k w) = stdout w ∧ slept (nap k w) = slept w + k
  ∧ calls (nap k w) = calls w ∧ ran (nap k w) = ran w.
Proof.
  revert w. induction k as [|k IH]; intros w; simpl.
  - by rewrite Nat.add_0_r.
  - destruct (IH (sleep_world others w)) as (-> & -> & -> & ->). simpl.
    split_and!; try done; lia.
Qed.

Lemma nap_emit k o w : nap k (emit o w) = emit o (nap k w).
Proof. revert w. induction k as [|k IH]; intros w; simpl; [done|]. by rewrite <- IH. Qed.

(** The loop always ends with a verdict, within the 600 sleeps, and only
    the filesystem, the output and the sleep count change. *)
Lemma wait_loop_total n fuel waited w :
  600 - waited ≤ n → n < fuel →
  ∃ b w', loop fuel waited w = Done b w'
          ∧ slept w' + waited ≤ slept w + Nat.max waited 600
          ∧ calls w' = calls w ∧ ran w' = ran w
          ∧ ∃ lines, stdout w' = stdout w ++ lines
                     ∧ Forall (λ o, is_progress o = true) lines.
Proof.
  revert fuel waited w. induction n as [|n IH]; intros fuel waited w Hn Hf.
  - destruct fuel as [|fuel]; [lia|]. rewrite wait_loop_ceiling by lia.
    exists false, w. split_and!; try done; [lia|].
    exists []. by rewrite app_nil_r.
  - destruct fuel as [|fuel]; [lia|].
    destruct (decide (600 ≤ waited)) as [Hc|Hc].
    { rewrite wait_loop_ceiling by lia. exists false, w.
      split_and!; try done; [lia|]. exists []. by rewrite app_nil_r. }
    destruct (decide (lock_file ∈ fs w)) as [Hl|Hl].
    { rewrite wait_loop_approve by (done || lia). eexists _, _.
      split_and!; try done; [simpl; lia|].
      exists [approved_line]. split; [done|]. by repeat constructor. }
    destruct (decide (deny_file ∈ fs w)) as [Hd|Hd].
    { rewrite wait_loop_deny by (done || lia). eexists _, _.
      split_and!; try done; [simpl; lia|].
      exists [denied_line]. split; [done|]. by repeat constructor. }
    rewrite wait_loop_sleep by (done || lia).
    destruct (IH fuel (waited + 1) (sleep_world others w))
      as (b & w' & -> & Hs & Hc' & Hr & lines & Ho & Hp); [lia|lia|].
    exists b, w'. simpl in *. split_and!; try done; [lia|].
    by exists lines.
Qed.

Lemma gate_unfold w :
  wait_for_approval others w = loop 601 0 (emit waiting_line w).
Proof. reflexivity. Qed.

(** The gate sleeps through the polls at which it sees no marker. *)
Lemma gate_skip k w :
  k ≤ 600 → (∀ j, j < k → quiet (nap j w)) →
  wait_for_approval others w
  = loop (601 - k) k (emit waiting_line (nap k w)).
Proof.
  intros Hk Hq. rewrite gate_unfold.
  replace 601 with (k + (601 - k)) at 1 by lia.
  rewrite wait_loop_skip, nap_emit; [done | lia |].
  intros j Hj. rewrite nap_emit. by apply Hq.
Qed.

Lemma gate_timeout w :
  (∀ j, j < 600 → quiet (nap j w)) →
  wait_for_approval others w = Done false (emit waiting_line (nap 600 w)).
Proof.
  intros Hq. rewrite (gate_skip 600 w) by (done || lia).
  change (601 - 600) with 1. by rewrite wait_loop_ceiling by lia.
Qed.

Lemma gate_total w :
  ∃ b w', wait_for_approval others w = Done b w'
          ∧ slept w' ≤ slept w + 600
          ∧ calls w' = calls w ∧ ran w' = ran w
          ∧ ∃ lines, stdout w' = stdout w ++ lines
                     ∧ Forall (λ o, is_progress o = true) lines.
Proof.
  rewrite gate_unfold.
  destruct (wait_loop_total 600 601 0 (emit waiting_line w))
    as (b & w' & -> & Hs & Hc & Hr & lines & Ho & Hp); [lia|lia|].
  exists b, w'. simpl in *. split_and!; try done; [lia|].
  exists (waiting_line :: lines). rewrite Ho, <- app_assoc.
  split; [done|]. by constructor.
Qed.
End gate_facts.

(** A filesystem that nobody else touches stays as it is. *)
Lemma sleeps_idle k w : fs (sleeps idle k w) = fs w.
Proof. revert w. induction k as [|k IH]; intros w; simpl; [done|]. by rewrite IH. Qed.

Arguments sleeps : simpl never.
Arguments wait_loop : simpl never.
Arguments wait_for_approval : simpl never.

(** ** Facts about the conversation loop *)

Section loop_facts.
Variable json_loads : str → option pyval.
Variable others : nat → gset str → gset str.
Variable backend : nat → list pyval → str.
Variable shell : nat → pyval → gset str → proc * gset str.
Implicit Types (w : World) (msgs : list pyval) (cmd c : pyval) (hitl : bool).

Local Abbreviation pass := (iteration json_loads others backend shell).
Local Abbreviation loop := (main_loop json_loads others backend shell).
Local Abbreviation exec := (execute shell).
Local Abbreviation final := (emit_final json_loads).
Local Abbreviation reply w msgs := (backend (calls w) msgs).
Local Abbreviation heard w msgs :=
  (msgs ++ [msg "assistant" (backend (calls w) msgs)]).
Local Abbreviation asking c :=
  (Print [text "[HITL] APPROVAL_REQUIRED: "; c]).
Local Abbreviation executing c := (Print [text "[HITL] EXECUTING: "; c]).

Lemma execute_done cmd msgs w :
  exec cmd msgs w
  = Done (msgs ++ [msg "user" (feedback (shell (length (ran w)) cmd (fs w)).1)])
         (shelled shell cmd w).
Proof. reflexivity. Qed.

(** The branches of one pass. *)
Lemma pass_parse_fault hitl msgs w e :
  extract_command json_loads (reply w msgs) = Raise e →
  pass hitl msgs w = Fault e (called w).
Proof. intros H. unfold iteration, call_llm. run. by rewrite H. Qed.

Lemma pass_final hitl msgs w c x :
  extract_command json_loads (reply w msgs) = Ret (c, x) →
  truthy c = false →
  pass hitl msgs w
  = match final (reply w msgs) (called w) with
    | Done _ w' => Done (Break (heard w msgs)) w'
    | Fault e w' => Fault e w'
    | OutOfFuel => OutOfFuel
    end.
Proof. intros H Hc. unfold iteration, call_llm. run. by rewrite H, Hc. Qed.

Lemma pass_classify_fault hitl msgs w c x e :
  extract_command json_loads (reply w msgs) = Ret (c, x) →
  truthy c = true → is_dangerous c = Raise e →
  pass hitl msgs w = Fault e (called w).
Proof.
  intros H Hc Hd. unfold iteration, call_llm. run. by rewrite H, Hc, Hd.
Qed.

Lemma pass_exec hitl msgs w c x dng :
  extract_command json_loads (reply w msgs) = Ret (c, x) →
  truthy c = true → is_dangerous c = Ret dng → dng && hitl = false →
  pass hitl msgs w
  = Done (Continue (heard w msgs ++
                    [msg "user" (feedback (shell (length (ran w)) c (fs w)).1)]))
         (shelled shell c (called w)).
Proof.
  intros H Hc Hd Hg. unfold iteration, call_llm. run.
  by rewrite H, Hc, Hd, Hg.
Qed.

Lemma pass_gate hitl msgs w c x dng ok w2 :
  extract_command json_loads (reply w msgs) = Ret (c, x) →
  truthy c = true → is_dangerous c = Ret dng → dng && hitl = true →
  wait_for_approval others (emit (asking c) (called w)) = Done ok w2 →
  pass hitl msgs w
  = if ok then
      Done (Continue (heard w msgs ++
                      [msg "user" (feedback (shell (length (ran w2)) c (fs w2)).1)]))
           (shelled shell c (emit (executing c) w2))
    else Done (Continue (heard w msgs ++ [denial])) w2.
Proof.
  intros H Hc Hd Hg Hw. unfold iteration, call_llm. run.
  rewrite H, Hc, Hd, Hg, Hw. by destruct ok.
Qed.

(** The final output of a reply whose fields are the dict [d]. *)
Lemma final_dict raw d o w :
  extract_json_fields json_loads raw = (PyDict d, o) →
  ∃ user_id message action,
    extract_user_id json_loads raw = Ret user_id
    ∧ extract_message json_loads raw = Ret message
    ∧ extract_action json_loads raw = Ret action
    ∧ final raw w
      = Done () (emit (if truthy (PyDict d) then
                         PrintJson
                           (PyDict
                              [(lit "userId", user_id);
                               (lit "message", message);
                               (lit "action", action);
                               (lit "terminal", PyStr []);
                               (lit "panelActions",
                                default (PyList [])
                                  (items_get d (lit "panelActions")))])
                       else Print [message]) w).
Proof.
  intros Hf. eexists _, _, _. split_and!.
  - by eapply extract_user_id_dict.
  - by eapply extract_message_dict.
  - by eapply extract_action_dict.
  - unfold emit_final.
    rewrite (extract_user_id_dict _ _ _ _ Hf),
            (extract_message_dict _ _ _ _ Hf),
            (extract_action_dict _ _ _ _ Hf), Hf. run.
    by destruct (negb _).
Qed.

(** The final output changes nothing but the standard output. *)
Lemma final_ends raw w :
  ∃ w', world_of (final raw w) = Some w'
        ∧ calls w' = calls w ∧ ran w' = ran w.
Proof.
  unfold emit_final. run.
  destruct (extract_user_id _ _); [|by eauto].
  destruct (extract_message _ _); [|by eauto].
  destruct (extract_action _ _); [|by eauto].
  destruct (extract_json_fields _ _) as [jf js].
  destruct (truthy jf); [|by eauto].
  destruct (py_get _ _ _); by eauto.
Qed.

(** Every pass ends, after exactly one more request to the backend. *)
Lemma pass_ends hitl msgs w :
  ∃ w', world_of (pass hitl msgs w) = Some w' ∧ calls w' = S (calls w).
Proof.
  destruct (extract_command json_loads (reply w msgs)) as [[c x]|e] eqn:H;
    [|rewrite (pass_parse_fault _ _ _ _ H); by eauto].
  destruct (truthy c) eqn:Hc.
  - destruct (is_dangerous c) as [dng|e] eqn:Hd;
      [|rewrite (pass_classify_fault _ _ _ _ _ _ H Hc Hd); by eauto].
    destruct (dng && hitl) eqn:Hg;
      [|rewrite (pass_exec _ _ _ _ _ _ H Hc Hd Hg); by eauto].
    destruct (gate_total others (emit (asking c) (called w)))
      as (ok & w2 & Hw & _ & Hcalls & _).
    rewrite (pass_gate _ _ _ _ _ _ _ _ H Hc Hd Hg Hw).
    destruct ok; by eauto.
  - rewrite (pass_final _ _ _ _ _ H Hc).
    destruct (final_ends (reply w msgs) (called w)) as (w' & Hw & Hcalls & _).
    destruct (final _ _); simpl in *; try done; injection Hw as ->; eauto.
Qed.

(** A pass that ends in [continue] had a command to run, and printed
    progress lines only. *)
Lemma pass_continue hitl msgs w m w' :
  pass hitl msgs w = Done (Continue m) w' →
  (∃ c x, extract_command json_loads (reply w msgs) = Ret (c, x)
          ∧ truthy c = true)
  ∧ ∃ lines, stdout w' = stdout w ++ lines
             ∧ Forall (λ o, is_progress o = true) lines.
Proof.
  destruct (extract_command json_loads (reply w msgs)) as [[c x]|e] eqn:H;
    [|by rewrite (pass_parse_fault _ _ _ _ H)].
  destruct (truthy c) eqn:Hc.
  - intros Hp. split; [by eauto|]. revert Hp.
    destruct (is_dangerous c) as [dng|e] eqn:Hd;
      [|by rewrite (pass_classify_fault _ _ _ _ _ _ H Hc Hd)].
    destruct (dng && hitl) eqn:Hg.
    + destruct (gate_total others (emit (asking c) (called w)))
        as (ok & w2 & Hw & _ & _ & _ & lines & Ho & Hl).
      rewrite (pass_gate _ _ _ _ _ _ _ _ H Hc Hd Hg Hw).
      destruct ok; intros [= _ <-]; simpl; rewrite Ho; simpl.
      * exists ((asking c :: lines) ++ [executing c]).
        split; [by rewrite <- !app_assoc|].
        apply Forall_app. split; [by constructor|by repeat constructor].
      * exists (asking c :: lines).
        split; [by rewrite <- !app_assoc|]. by constructor.
    + rewrite (pass_exec _ _ _ _ _ _ H Hc Hd Hg). intros [= _ <-].
      exists []. by rewrite app_nil_r.
  - rewrite (pass_final _ _ _ _ _ H Hc). by destruct (final _ _).
Qed.

(** One turn of the [while]. *)
Lemma loop_unfold hitl fuel iters msgs w :
  iters < max_iters →
  loop hitl (S fuel) iters msgs w
  = match pass hitl msgs w with
    | Done (Continue m) w' => loop hitl fuel (iters + 1) m w'
    | Done (Break m) w' => Done m w'
    | Fault e w' => Fault e w'
    | OutOfFuel => OutOfFuel
    end.
Proof.
  intros Hi. apply Nat.ltb_lt in Hi. simpl. rewrite Hi. run.
  destruct (pass _ _ _) as [[m|m] w'|e w'|]; done.
Qed.

Lemma loop_exhausted hitl fuel iters msgs w :
  max_iters ≤ iters → loop hitl (S fuel) iters msgs w = Done msgs w.
Proof. intros Hi. apply Nat.ltb_ge in Hi. simpl. by rewrite Hi. Qed.

(** [k] passes that continue take the loop [k] turns further. *)
Lemma loop_passes hitl k m0 w0 m w :
  passes json_loads others backend shell hitl k m0 w0 m w →
  ∀ fuel iters, iters + k ≤ max_iters →
  loop hitl (k + fuel) iters m0 w0 = loop hitl fuel (iters + k) m w
  ∧ calls w = calls w0 + k
  ∧ ∃ lines, stdout w = stdout w0 ++ lines
             ∧ Forall (λ o, is_progress o = true) lines.
Proof.
  induction 1 as [m w|k m0 w0 m1 w1 m w Hp Hk IH]; intros fuel iters Hi.
  - simpl. rewrite !Nat.add_0_r.
    split_and!; try done. exists []. by rewrite app_nil_r.
  - change (S k + fuel) with (S (k + fuel)).
    rewrite loop_unfold, Hp by lia.
    destruct (IH fuel (iters + 1)) as (-> & -> & l2 & -> & Hl2); [lia|].
    destruct (pass_continue _ _ _ _ _ Hp) as (_ & l1 & -> & Hl1).
    destruct (pass_ends hitl m0 w0) as (w' & Hw & Hc).
    rewrite Hp in Hw. injection Hw as ->. rewrite Hc.
    split_and!; [f_equal; lia | lia |].
    exists (l1 ++ l2). rewrite app_assoc. split; [done|].
    by apply Forall_app.
Qed.

(** The loop ends whatever happens, within the budget. *)
Lemma loop_total hitl n fuel iters msgs w :
  max_iters - iters ≤ n → n < fuel →
  ∃ w', world_of (loop hitl fuel iters msgs w) = Some w'
        ∧ calls w' ≤ calls w + (max_iters - iters).
Proof.
  revert fuel iters msgs w.
  induction n as [|n IH]; intros fuel iters msgs w Hn Hf;
    (destruct fuel as [|fuel]; [lia|]).
  - rewrite loop_exhausted by lia. exists w. split; [done|lia].
  - destruct (decide (max_iters ≤ iters)) as [Hi|Hi].
    { rewrite loop_exhausted by lia. exists w. split; [done|lia]. }
    rewrite loop_unfold by lia.
    destruct (pass_ends hitl msgs w) as (w1 & Hw & Hc).
    destruct (pass hitl msgs w) as [[m|m] w'|e w'|]; simpl in Hw;
      try done; injection Hw as ->.
    + destruct (IH fuel (iters + 1) m w1) as (w' & -> & Hc'); [lia|lia|].
      exists w'. split; [done|]. lia.
    + exists w1. split; [done|]. lia.
    + exists w1. split; [done|]. lia.
Qed.
End loop_facts.

Arguments main_loop : simpl never.

(** ** Parser properties *)

(** C6: a raw text in which no opening brace is followed by a closing one
    gives no command and the trimmed text as message; when the matched span
    decodes to an object without a (non-empty) [message], the message is the
    text before the span, trimmed, which for brace-free prose followed by
    such an object is the prose, trimmed; and no extractor raises. *)
Theorem parser_message_fallback (json_loads : str → option pyval) :
  decodes_objects json_loads →
  (∀ raw,
     (¬ ∃ pre mid post, raw = pre ++ lbrace :: (mid ++ rbrace :: post)) →
     extract_command json_loads raw = Ret (PyNone, PyNone)
     ∧ extract_message json_loads raw = Ret (PyStr (strip raw)))
  ∧ (∀ raw jm d,
       re_search raw = Some jm →
       json_loads (m_group jm) = Some (PyDict d) →
       truthy (default (PyStr []) (items_get d (lit "message"))) = false →
       extract_message json_loads raw
       = Ret (PyStr (strip (take (m_start jm) raw))))
  ∧ (∀ prose body d,
       lbrace ∉ prose →
       json_loads (lbrace :: (body ++ [rbrace])) = Some (PyDict d) →
       truthy (default (PyStr []) (items_get d (lit "message"))) = false →
       extract_message json_loads (prose ++ lbrace :: (body ++ [rbrace]))
       = Ret (PyStr (strip prose)))
  ∧ (∀ raw,
       (∃ c, extract_command json_loads raw = Ret c)
       ∧ (∃ v, extract_message json_loads raw = Ret v)
       ∧ (∃ v, extract_user_id json_loads raw = Ret v)
       ∧ (∃ v, extract_action json_loads raw = Ret v)
       ∧ (∃ l, extract_panel_actions json_loads raw = Ret (PyList l))).
Proof.
  intros Hloads. split_and!.
  - intros raw Hno. apply re_search_None in Hno.
    pose proof (fields_no_match json_loads raw Hno) as Hf.
    rewrite (extract_command_dict _ _ _ _ Hf),
            (extract_message_dict _ _ _ _ Hf), Hno. done.
  - intros raw jm d Hm Hd Hfalsy.
    pose proof (fields_decoded json_loads raw jm _ Hm Hd) as Hf.
    rewrite (extract_message_dict _ _ _ _ Hf), Hm. simpl.
    by rewrite Hfalsy.
  - intros prose body d Hp Hd Hfalsy.
    pose proof (re_search_prose prose body Hp) as Hm.
    pose proof (fields_decoded json_loads _ _ _ Hm Hd) as Hf.
    rewrite (extract_message_dict _ _ _ _ Hf), Hm. simpl.
    by rewrite Hfalsy, take_app_length.
  - intros raw. destruct (fields_dict json_loads raw Hloads) as [d Hd].
    destruct (extract_json_fields json_loads raw) as [data o] eqn:Hf.
    simpl in Hd. subst data.
    rewrite (extract_command_dict _ _ _ _ Hf),
            (extract_message_dict _ _ _ _ Hf),
            (extract_user_id_dict _ _ _ _ Hf),
            (extract_action_dict _ _ _ _ Hf).
    split_and!; eauto. by eapply extract_panel_actions_dict.
Qed.

Lemma parser_message_fallback_witness :
  (extract_command Json.loads (lit "  just text ") = Ret (PyNone, PyNone)
   ∧ extract_message Json.loads (lit "  just text ") = Ret (text "just text"))
  ∧ extract_message Json.loads (jlit "Done!  {'action': 'wave'}")
    = Ret (text "Done!").
Proof.
  destruct (parser_message_fallback Json.loads loads_decodes_objects)
    as (Hplain & _ & Hprose & _).
  split.
  - apply Hplain, re_search_None. reflexivity.
  - apply (Hprose (lit "Done!  ") (jlit "'action': 'wave'")
             [(lit "action", text "wave")]).
    + apply (bool_decide_unpack _). vm_compute. exact I.
    + reflexivity.
    + reflexivity.
Defined.

(** ** Approval gate properties *)

Section gate_properties.
Variable others : nat → gset str → gset str.
Implicit Types (w : World) (k j : nat).

(** What the gate sees at its [k]-th poll (counting from 0) when it has
    consumed nothing before. *)
Local Abbreviation seen w k := (fs (sleeps others k w)).
Local Abbreviation undisturbed w k :=
  (∀ j, j < k → quiet (sleeps others j w)).

(** C4: the gate sleeps one time unit between polls and at most 600
    times in all; at the first poll that shows a marker it removes that
    marker and returns approved for the approved marker, denied for the
    denied marker; if 600 polls show no marker it returns denied, and
    removes nothing. *)
Theorem gate_polls_until_ceiling w :
  (∃ b w', wait_for_approval others w = Done b w'
           ∧ slept w' ≤ slept w + 600)
  ∧ (∀ k, k < 600 → undisturbed w k → lock_file ∈ seen w k →
       ∃ w', wait_for_approval others w = Done true w'
             ∧ fs w' = seen w k ∖ {[lock_file]}
             ∧ slept w' = slept w + k)
  ∧ (∀ k, k < 600 → undisturbed w k →
       lock_file ∉ seen w k → deny_file ∈ seen w k →
       ∃ w', wait_for_approval others w = Done false w'
             ∧ fs w' = seen w k ∖ {[deny_file]}
             ∧ slept w' = slept w + k)
  ∧ (undisturbed w 600 →
       ∃ w', wait_for_approval others w = Done false w'
             ∧ fs w' = seen w 600
             ∧ slept w' = slept w + 600).
Proof.
  split_and!.
  - destruct (gate_total others w) as (b & w' & H & Hs & _). eauto.
  - intros k Hk Hq Hl. rewrite (gate_skip others k w) by (done || lia).
    replace (601 - k) with (S (600 - k)) by lia.
    rewrite wait_loop_approve by done. eexists. split_and!; [done..|].
    destruct (nap_fields others k w) as (_ & Hs & _). exact Hs.
  - intros k Hk Hq Hl Hd. rewrite (gate_skip others k w) by (done || lia).
    replace (601 - k) with (S (600 - k)) by lia.
    rewrite wait_loop_deny by done. eexists. split_and!; [done..|].
    destruct (nap_fields others k w) as (_ & Hs & _). exact Hs.
  - intros Hq. rewrite gate_timeout by done.
    eexists. split; [reflexivity|]. rewrite fs_emit, slept_emit.
    split; [reflexivity|].
    destruct (nap_fields others 600 w) as (_ & Hs & _). exact Hs.
Qed.

(** C9: at each poll the approved marker is looked for first; when both
    markers are there the gate returns approved and removes the approved
    marker only, the denied marker stays; a marker that is there when
    the gate is entered is consumed at the first poll, before any
    sleep. *)
Theorem gate_prefers_approval w :
  (∀ k, k < 600 → undisturbed w k →
     lock_file ∈ seen w k → deny_file ∈ seen w k →
     ∃ w', wait_for_approval others w = Done true w'
           ∧ fs w' = seen w k ∖ {[lock_file]}
           ∧ deny_file ∈ fs w')
  ∧ (lock_file ∈ fs w →
     ∃ w', wait_for_approval others w = Done true w'
           ∧ fs w' = fs w ∖ {[lock_file]} ∧ slept w' = slept w)
  ∧ (lock_file ∉ fs w → deny_file ∈ fs w →
     ∃ w', wait_for_approval others w = Done false w'
           ∧ fs w' = fs w ∖ {[deny_file]} ∧ slept w' = slept w).
Proof.
  assert (H0 : ∀ j, j < 0 → quiet (sleeps others j w)) by lia.
  split_and!.
  - intros k Hk Hq Hl Hd. rewrite (gate_skip others k w) by (done || lia).
    replace (601 - k) with (S (600 - k)) by lia.
    rewrite wait_loop_approve by done. eexists. split_and!; [done..|].
    simpl. pose proof markers_differ. set_solver.
  - intros Hl. rewrite (gate_skip others 0 w) by (done || lia).
    change (601 - 0) with (S 600).
    rewrite wait_loop_approve by (done || lia). eauto.
  - intros Hl Hd. rewrite (gate_skip others 0 w) by (done || lia).
    change (601 - 0) with (S 600).
    rewrite wait_loop_deny by (done || lia). eauto.
Qed.
End gate_properties.

Lemma gate_polls_until_ceiling_witness :
  let approve_later n (files : gset str) :=
    if (n =? 2)%nat then files ∪ {[lock_file]} else files in
  (∃ w', wait_for_approval approve_later (fresh ∅) = Done true w'
         ∧ fs w' = fs (sleeps approve_later 3 (fresh ∅)) ∖ {[lock_file]}
         ∧ slept w' = 3)
  ∧ (∃ w', wait_for_approval idle (fresh ∅) = Done false w'
           ∧ fs w' = fs (sleeps idle 600 (fresh ∅))
           ∧ slept w' = 600).
Proof.
  intros approve_later. split.
  - apply (gate_polls_until_ceiling approve_later (fresh ∅)); [lia| |].
    + intros j Hj.
      destruct j as [|[|[|j]]]; [..|lia];
        (split; apply (bool_decide_unpack _); vm_compute; exact I).
    + apply (bool_decide_unpack _). vm_compute. exact I.
  - apply (gate_polls_until_ceiling idle (fresh ∅)).
    intros j _. unfold quiet. rewrite sleeps_idle.
    split; apply (bool_decide_unpack _); vm_compute; exact I.
Defined.

Lemma gate_prefers_approval_witness :
  ∃ w', wait_for_approval idle
          (fresh ({[lock_file]} ∪ {[deny_file]})) = Done true w'
        ∧ fs w' = ({[lock_file]} ∪ {[deny_file]}) ∖ {[lock_file]}
        ∧ deny_file ∈ fs w'.
Proof.
  destruct (gate_prefers_approval idle
              (fresh ({[lock_file]} ∪ {[deny_file]}))) as (H & _).
  apply (H 0); [lia | lia | ..];
    apply (bool_decide_unpack _); vm_compute; exact I.
Defined.

(** ** Conversation loop properties *)

Section loop_properties.
Variable json_loads : str → option pyval.
Variable others : nat → gset str → gset str.
Variable backend : nat → list pyval → str.
Variable shell : nat → pyval → gset str → proc * gset str.
Implicit Types (w : World) (msgs : list pyval) (c : pyval) (hitl : bool).

Local Abbreviation pass := (iteration json_loads others backend shell).
Local Abbreviation loop := (main_loop json_loads others backend shell).
Local Abbreviation reply w msgs := (backend (calls w) msgs).
Local Abbreviation heard w msgs :=
  (msgs ++ [msg "assistant" (backend (calls w) msgs)]).
Local Abbreviation asking c :=
  (Print [text "[HITL] APPROVAL_REQUIRED: "; c]).
Local Abbreviation executing c := (Print [text "[HITL] EXECUTING: "; c]).

(** C2: with oversight enabled, in a pass whose command is classified
    dangerous the gate gives its verdict before anything runs; on denial
    (a timeout is one) the pass appends the denial notice as a user
    message, runs nothing and the loop goes on to its next turn; the
    shell is reached only after approval. *)
Theorem dangerous_runs_only_when_approved msgs w c x :
  extract_command json_loads (reply w msgs) = Ret (c, x) →
  truthy c = true →
  is_dangerous c = Ret true →
  ∃ ok w2,
    wait_for_approval others (emit (asking c) (called w)) = Done ok w2
    ∧ ran w2 = ran w
    ∧ ((∀ j, j < 600 →
          quiet (sleeps others j (emit (asking c) (called w)))) →
       ok = false)
    ∧ (ok = false →
       pass true msgs w
       = Done (Continue
                 (heard w msgs ++
                  [msg "user" (lit "ERROR: Command denied by user")])) w2
       ∧ ∀ fuel iters, iters < max_iters →
           loop true (S fuel) iters msgs w
           = loop true fuel (iters + 1)
               (heard w msgs ++
                [msg "user" (lit "ERROR: Command denied by user")]) w2)
    ∧ (∀ f w', pass true msgs w = Done f w' → ran w' ≠ ran w →
         ok = true ∧ ran w' = ran w ++ [c]).
Proof.
  intros H Hc Hd.
  destruct (gate_total others (emit (asking c) (called w)))
    as (ok & w2 & Hw & _ & _ & Hr & _).
  exists ok, w2. split_and!; [done | done | | |].
  - intros Hq. rewrite gate_timeout in Hw by done. congruence.
  - intros ->.
    assert (Hp := pass_gate json_loads others backend shell true msgs w
                    c x true false w2 H Hc Hd eq_refl Hw).
    split; [done|]. intros fuel iters Hi.
    by rewrite loop_unfold, Hp.
  - intros f w'.
    rewrite (pass_gate json_loads others backend shell true msgs w
               c x true ok w2 H Hc Hd eq_refl Hw).
    destruct ok; intros [= <- <-]; simpl; [by rewrite Hr|].
    intros Hne. by destruct Hne.
Qed.

(** C7: when the executor block is reached (the command is not gated, or
    the gate approved it) the pass never raises: it appends one user
    message and the loop goes on.  After a run that completed without
    output the message carries the placeholder, never an empty text;
    after a run that failed (the timeout of 120 time units included) it
    carries the description of the error. *)
Theorem executor_always_gives_feedback hitl msgs w c x dng :
  extract_command json_loads (reply w msgs) = Ret (c, x) →
  truthy c = true →
  is_dangerous c = Ret dng →
  (dng && hitl = false →
     ∃ r w',
       r = (shell (length (ran w)) c (fs w)).1
       ∧ pass hitl msgs w
         = Done (Continue (heard w msgs ++ [msg "user" (feedback r)])) w'
       ∧ ran w' = ran w ++ [c]
       ∧ ∀ fuel iters, iters < max_iters →
           loop hitl (S fuel) iters msgs w
           = loop hitl fuel (iters + 1)
               (heard w msgs ++ [msg "user" (feedback r)]) w')
  ∧ (∀ w2, dng && hitl = true →
       wait_for_approval others (emit (asking c) (called w)) = Done true w2 →
       ∃ r w',
         r = (shell (length (ran w2)) c (fs w2)).1
         ∧ pass hitl msgs w
           = Done (Continue (heard w msgs ++ [msg "user" (feedback r)])) w'
         ∧ ran w' = ran w2 ++ [c]
         ∧ ∀ fuel iters, iters < max_iters →
             loop hitl (S fuel) iters msgs w
             = loop hitl fuel (iters + 1)
                 (heard w msgs ++ [msg "user" (feedback r)]) w')
  ∧ feedback (Completed [])
    = lit "[INTERNAL_COMMAND_OUTPUT]" ++ [0x0A%N] ++
      lit "Command executed successfully with no output."
  ∧ (∀ out, ∃ shown,
       feedback (Completed out)
       = lit "[INTERNAL_COMMAND_OUTPUT]" ++ [0x0A%N] ++ shown
       ∧ shown ≠ [] ∧ (out ≠ [] → shown = out))
  ∧ (∀ what,
       feedback (Failed what) = lit "ERROR executing command: " ++ what).
Proof.
  intros H Hc Hd. split_and!.
  - intros Hg.
    assert (Hp := pass_exec json_loads others backend shell hitl msgs w
                    c x dng H Hc Hd Hg).
    eexists _, _. split_and!; [done | exact Hp | done |].
    intros fuel iters Hi. by rewrite loop_unfold, Hp.
  - intros w2 Hg Hw.
    assert (Hp := pass_gate json_loads others backend shell hitl msgs w
                    c x dng true w2 H Hc Hd Hg Hw). simpl in Hp.
    eexists _, _. split_and!; [done | exact Hp | done |].
    intros fuel iters Hi. by rewrite loop_unfold, Hp.
  - done.
  - intros [|a out].
    + exists no_output. by split_and!.
    + exists (a :: out). by split_and!.
  - done.
Qed.

(** C8: the loop, as [main] starts it, always ends and sends at most 5
    requests to the backend.  It stops in the first pass whose reply
    yields no command, and that pass emits the final output; when 5
    passes in a row have yielded a command it stops having printed
    progress lines only, no final output. *)
Theorem loop_stays_within_budget hitl m0 w0 :
  (∃ w', world_of (loop hitl 6 0 m0 w0) = Some w'
         ∧ calls w' ≤ calls w0 + 5)
  ∧ (∀ k m w,
       k < 5 →
       passes json_loads others backend shell hitl k m0 w0 m w →
       extract_command json_loads (reply w m) = Ret (PyNone, PyNone) →
       ∃ line,
         emit_final json_loads (reply w m) (called w)
         = Done () (emit line (called w))
         ∧ loop hitl 6 0 m0 w0 = Done (heard w m) (emit line (called w))
         ∧ calls (emit line (called w)) = calls w0 + k + 1)
  ∧ (∀ m w,
       passes json_loads others backend shell hitl 5 m0 w0 m w →
       loop hitl 6 0 m0 w0 = Done m w
       ∧ calls w = calls w0 + 5
       ∧ ∃ lines, stdout w = stdout w0 ++ lines
                  ∧ Forall (λ o, is_progress o = true) lines
                  ∧ ∀ v, PrintJson v ∉ lines)
  ∧ (∀ m w m' w',
       pass hitl m w = Done (Continue m') w' →
       ∃ c x, extract_command json_loads (reply w m) = Ret (c, x)
              ∧ truthy c = true).
Proof.
  split_and!.
  - destruct (loop_total json_loads others backend shell hitl 5 6 0 m0 w0)
      as (w' & Hw & Hc); [done | lia |]. by exists w'.
  - intros k m w Hk Hp Hcmd.
    destruct (extract_command_ret _ _ _ Hcmd) as (d & o & Hf).
    destruct (final_dict json_loads _ d o (called w) Hf)
      as (uid & mv & act & _ & _ & _ & Hfin).
    eexists. split; [exact Hfin|].
    destruct (loop_passes json_loads others backend shell hitl k m0 w0 m w
                Hp (6 - k) 0) as (Hl & Hc & _); [unfold max_iters; lia|].
    replace (k + (6 - k)) with 6 in Hl by lia. rewrite Hl.
    replace (6 - k) with (S (5 - k)) by lia.
    rewrite loop_unfold by (unfold max_iters; lia).
    rewrite (pass_final json_loads others backend shell hitl m w _ _ Hcmd)
      by done.
    rewrite Hfin. split; [done|]. simpl. lia.
  - intros m w Hp.
    destruct (loop_passes json_loads others backend shell hitl 5 m0 w0 m w
                Hp 1 0) as (Hl & Hc & lines & Ho & Hpr); [done|].
    change (5 + 1) with 6 in Hl. rewrite Hl.
    rewrite loop_exhausted by (unfold max_iters; lia).
    split_and!; [reflexivity | exact Hc |].
    exists lines. split_and!; [exact Ho | exact Hpr |].
    intros v Hin. eapply Forall_forall in Hpr; [|exact Hin]. discriminate.
  - intros m w m' w' Hp.
    by destruct (pass_continue json_loads others backend shell
                   hitl m w m' w' Hp).
Qed.

(** C10: when the matched span decodes to an object whose [terminal]
    field holds a falsy value, no command is extracted; the pass runs
    nothing, emits the final output as a JSON object and ends the
    loop. *)
Theorem falsy_terminal_is_final hitl msgs w jm d v :
  re_search (reply w msgs) = Some jm →
  json_loads (m_group jm) = Some (PyDict d) →
  items_get d (lit "terminal") = Some v →
  truthy v = false →
  extract_command json_loads (reply w msgs) = Ret (PyNone, PyNone)
  ∧ ∃ user_id message action,
      extract_user_id json_loads (reply w msgs) = Ret user_id
      ∧ extract_message json_loads (reply w msgs) = Ret message
      ∧ extract_action json_loads (reply w msgs) = Ret action
      ∧ ∃ w',
          w' = emit (PrintJson
                       (PyDict
                          [(lit "userId", user_id);
                           (lit "message", message);
                           (lit "action", action);
                           (lit "terminal", PyStr []);
                           (lit "panelActions",
                            default (PyList [])
                              (items_get d (lit "panelActions")))]))
                 (called w)
          ∧ pass hitl msgs w = Done (Break (heard w msgs)) w'
          ∧ ran w' = ran w
          ∧ ∀ fuel iters, iters < max_iters →
              loop hitl (S fuel) iters msgs w = Done (heard w msgs) w'.
Proof.
  intros Hm Hd Hv Hfalsy.
  pose proof (fields_decoded json_loads _ jm _ Hm Hd) as Hf.
  assert (Hcmd : extract_command json_loads (reply w msgs)
                 = Ret (PyNone, PyNone)).
  { rewrite (extract_command_dict _ _ _ _ Hf), Hv. simpl.
    by rewrite Hfalsy. }
  split; [done|].
  destruct (final_dict json_loads _ d _ (called w) Hf)
    as (uid & mv & act & Hu & Hmsg & Ha & Hfin).
  assert (Ht : truthy (PyDict d) = true) by (by destruct d).
  rewrite Ht in Hfin.
  exists uid, mv, act. split_and!; [done..|].
  eexists. split; [done|].
  assert (Hp := pass_final json_loads others backend shell hitl msgs w
                  _ _ Hcmd eq_refl).
  rewrite Hfin in Hp. split_and!; [done | done |].
  intros fuel iters Hi. by rewrite loop_unfold, Hp.
Qed.
End loop_properties.

(** ** The properties at concrete replies *)

Lemma dangerous_runs_only_when_approved_witness :
  ∃ m w2,
    iteration Json.loads idle
      (scripted [jlit "{'terminal': 'rm -rf /tmp/x'}"]) (shell_says [])
      true [] (fresh ∅) = Done (Continue m) w2
    ∧ last m = Some (msg "user" (lit "ERROR: Command denied by user"))
    ∧ ran w2 = [].
Proof.
  destruct (dangerous_runs_only_when_approved Json.loads idle
              (scripted [jlit "{'terminal': 'rm -rf /tmp/x'}"]) (shell_says [])
              [] (fresh ∅) (text "rm -rf /tmp/x") PyNone)
    as (ok & w2 & Hw & Hr & Ht & Hden & _);
    [vm_compute; reflexivity | reflexivity | vm_compute; reflexivity |].
  assert (Hok : ok = false).
  { apply Ht. intros j _. unfold quiet. rewrite sleeps_idle.
    split; apply (bool_decide_unpack _); vm_compute; exact I. }
  destruct (Hden Hok) as [Hp _].
  eexists _, w2. split; [exact Hp|]. split; [reflexivity | exact Hr].
Defined.

Lemma executor_always_gives_feedback_witness :
  ∃ w',
    iteration Json.loads idle (scripted [jlit "{'terminal': 'ls'}"])
      (shell_says []) false [] (fresh ∅)
    = Done (Continue
              [msg "assistant" (jlit "{'terminal': 'ls'}");
               msg "user"
                 (lit "[INTERNAL_COMMAND_OUTPUT]" ++ [0x0A%N] ++
                  lit "Command executed successfully with no output.")]) w'
    ∧ ran w' = [text "ls"].
Proof.
  destruct (executor_always_gives_feedback Json.loads idle
              (scripted [jlit "{'terminal': 'ls'}"]) (shell_says [])
              false [] (fresh ∅) (text "ls") PyNone false)
    as (H & _);
    [vm_compute; reflexivity | reflexivity | vm_compute; reflexivity |].
  destruct (H eq_refl) as (r & w' & -> & Hp & Hr & _).
  exists w'. split; [exact Hp | exact Hr].
Defined.

(** The first end-to-end scenario of the specification: [ls] is run, then
    the second reply is final. *)
Lemma loop_stays_within_budget_witness :
  ∃ msgs w',
    main_loop Json.loads idle
      (scripted [jlit "{'terminal': 'ls'}";
                 jlit "{'message': 'Here are your files', 'userId': 'u1'}"])
      (shell_says (lit "a.txt")) false 6 0 [] (fresh ∅) = Done msgs w'
    ∧ calls w' = 2
    ∧ stdout w'
      = [PrintJson
           (PyDict [(lit "userId", text "u1");
                    (lit "message", text "Here are your files");
                    (lit "action", PyStr []);
                    (lit "terminal", PyStr []);
                    (lit "panelActions", PyList [])])].
Proof.
  destruct (loop_stays_within_budget Json.loads idle
              (scripted [jlit "{'terminal': 'ls'}";
                         jlit "{'message': 'Here are your files', 'userId': 'u1'}"])
              (shell_says (lit "a.txt")) false [] (fresh ∅)) as (_ & H & _).
  edestruct (H 1) as (line & Hfin & Hloop & Hcalls).
  - lia.
  - eapply passes_S; [vm_compute; reflexivity | apply passes_O].
  - vm_compute. reflexivity.
  - eexists _, _. split; [exact Hloop|]. split; [exact Hcalls|].
    vm_compute in Hfin. injection Hfin as <-. vm_compute. reflexivity.
Defined.

Lemma falsy_terminal_is_final_witness :
  ∃ msgs w',
    iteration Json.loads idle
      (scripted [jlit "{'terminal': '', 'message': 'done'}"]) (shell_says [])
      true [] (fresh ∅) = Done (Break msgs) w'
    ∧ ran w' = [].
Proof.
  destruct (falsy_terminal_is_final Json.loads idle
              (scripted [jlit "{'terminal': '', 'message': 'done'}"])
              (shell_says []) true [] (fresh ∅)
              {| m_start := 0;
                 m_group := jlit "{'terminal': '', 'message': 'done'}" |}
              [(lit "terminal", PyStr []); (lit "message", text "done")]
              (PyStr []))
    as (_ & uid & mv & act & _ & _ & _ & w' & _ & Hp & Hr & _);
    [reflexivity | reflexivity | reflexivity | reflexivity |].
  eexists _, w'. split; [exact Hp | exact Hr].
Defined.

(** C3 (defect of the code): a reply whose [terminal] field holds a number
    or a list makes the loop end with an [AttributeError], raised by
    [cmd.strip()] in [is_dangerous] outside every [try], with oversight
    switched off as well; a [HISTORY] that decodes to a number ends [main]
    with a [TypeError] before the loop. *)
Theorem non_text_terminal_raises :
  main Json.loads idle (scripted [jlit "{'terminal': 5}"]) (shell_says [])
    (lit "You are Agent") (lit "list files") (PyList []) false (fresh ∅)
  = Fault AttributeError (called (fresh ∅))
  ∧ main Json.loads idle (scripted [jlit "{'terminal': ['ls', '-la']}"])
      (shell_says []) (lit "You are Agent") (lit "list files") (PyList [])
      false (fresh ∅)
    = Fault AttributeError (called (fresh ∅))
  ∧ main Json.loads idle (scripted [jlit "{'message': 'hi'}"]) (shell_says [])
      (lit "You are Agent") (lit "list files") (PyInt 5) false (fresh ∅)
    = Fault TypeError (fresh ∅).
Proof. split_and!; vm_compute; reflexivity. Qed.

(** C5 (defect of the code): the final output copies the reply's
    [panelActions] field as it is; for the number 5 the emitted object
    carries 5, where [extract_panel_actions], which the loop never calls,
    answers the empty list. *)
Theorem final_output_copies_panel_actions :
  extract_panel_actions Json.loads (jlit "{'message': 'hi', 'panelActions': 5}")
  = Ret (PyList [])
  ∧ ∃ msgs w',
      main Json.loads idle (scripted [jlit "{'message': 'hi', 'panelActions': 5}"])
        (shell_says []) (lit "You are Agent") (lit "hello") (PyList []) false
        (fresh ∅) = Done msgs w'
      ∧ stdout w'
        = [PrintJson
             (PyDict [(lit "userId", PyStr []);
                      (lit "message", text "hi");
                      (lit "action", PyStr []);
                      (lit "terminal", PyStr []);
                      (lit "panelActions", PyInt 5)])].
Proof.
  split; [vm_compute; reflexivity|].
  eexists _, _. split; vm_compute; reflexivity.
Qed.

(** ** Further properties of the parser *)

(** X1: [re.search(r'\{[\s\S]*\}', raw)] finds nothing exactly when no
    opening brace of [raw] has a closing brace after it; otherwise the match
    starts at the first opening brace and ends with the last closing brace
    of [raw], whatever lies between. *)
Theorem search_spans_first_to_last (raw : str) :
  (re_search raw = None ↔
     ¬ ∃ pre mid post, raw = pre ++ lbrace :: (mid ++ rbrace :: post))
  ∧ ∀ jm, re_search raw = Some jm ↔
      ∃ pre mid post,
        raw = pre ++ lbrace :: (mid ++ rbrace :: post)
        ∧ (lbrace ∉ pre) ∧ (rbrace ∉ post)
        ∧ jm = {| m_start := length pre;
                  m_group := lbrace :: (mid ++ [rbrace]) |}.
Proof.
  split; [apply re_search_None|]. intros jm. unfold re_search.
  by rewrite re_search_from_Some.
Qed.

(** X2: parsing the matched span again, alone, finds the same span and so
    the same decoded fields, command, user id, action and panel actions;
    only the fallback message differs, which for the span alone is the
    empty text because nothing precedes it. *)
Theorem reparsing_span_gives_same_fields
    (json_loads : str → option pyval) (raw : str) (jm : Match) :
  re_search raw = Some jm →
  re_search (m_group jm) = Some {| m_start := 0; m_group := m_group jm |}
  ∧ extract_json_fields json_loads (m_group jm)
    = extract_json_fields json_loads raw
  ∧ extract_command json_loads (m_group jm) = extract_command json_loads raw
  ∧ extract_user_id json_loads (m_group jm) = extract_user_id json_loads raw
  ∧ extract_action json_loads (m_group jm) = extract_action json_loads raw
  ∧ extract_panel_actions json_loads (m_group jm)
    = extract_panel_actions json_loads raw
  ∧ (∀ d, json_loads (m_group jm) = Some (PyDict d) →
       truthy (default (PyStr []) (items_get d (lit "message"))) = false →
       extract_message json_loads (m_group jm) = Ret (PyStr [])).
Proof.
  intros Hm.
  destruct (re_search_Some _ _ Hm) as (mid & Hg & _).
  assert (Hs : re_search (m_group jm)
               = Some {| m_start := 0; m_group := m_group jm |}).
  { rewrite Hg. apply (re_search_prose [] mid), not_elem_of_nil. }
  assert (Hf : extract_json_fields json_loads (m_group jm)
               = extract_json_fields json_loads raw).
  { unfold extract_json_fields. by rewrite Hs, Hm. }
  split_and!; try done.
  - unfold extract_command. by rewrite Hf.
  - unfold extract_user_id. by rewrite Hf.
  - unfold extract_action. by rewrite Hf.
  - unfold extract_panel_actions. by rewrite Hf.
  - intros d Hd Hfalsy.
    pose proof (fields_decoded json_loads _ _ _ Hs Hd) as Hf'.
    rewrite (extract_message_dict _ _ _ _ Hf'), Hs. simpl.
    by rewrite Hfalsy.
Qed.

Lemma reparsing_span_gives_same_fields_witness :
  extract_command Json.loads (jlit "{'terminal': 'ls'}")
  = extract_command Json.loads (jlit "I will run {'terminal': 'ls'} now").
Proof.
  destruct (reparsing_span_gives_same_fields Json.loads
              (jlit "I will run {'terminal': 'ls'} now")
              {| m_start := 11; m_group := jlit "{'terminal': 'ls'}" |})
    as (_ & _ & H & _); [reflexivity|]. exact H.
Defined.

(** X3: a command is extracted exactly when the matched span decodes to an
    object whose [terminal] field is truthy, and the command is then that
    value, unchanged and of whatever type. *)
Theorem command_is_truthy_terminal
    (json_loads : str → option pyval) (raw : str) (v : pyval) :
  truthy v = true →
  (extract_command json_loads raw = Ret (v, PyNone) ↔
   ∃ jm d, re_search raw = Some jm
           ∧ json_loads (m_group jm) = Some (PyDict d)
           ∧ items_get d (lit "terminal") = Some v).
Proof.
  intros Hv. split.
  - intros Hc. destruct (extract_command_ret _ _ _ Hc) as (d & o & Hf).
    rewrite (extract_command_dict _ _ _ _ Hf) in Hc. simpl in Hc.
    destruct (items_get d (lit "terminal")) as [t|] eqn:Ht; simpl in Hc;
      [|injection Hc as <-; done].
    destruct (truthy t) eqn:Htt; injection Hc as <-; [|done].
    unfold extract_json_fields in Hf.
    destruct (re_search raw) as [jm|]; [|injection Hf as <- _; done].
    destruct (json_loads (m_group jm)) as [data|] eqn:Hl;
      [|injection Hf as <- _; done].
    injection Hf as -> _. by exists jm, d.
  - intros (jm & d & Hm & Hd & Ht).
    rewrite (extract_command_dict _ _ _ _ (fields_decoded _ _ _ _ Hm Hd)), Ht.
    simpl. by rewrite Hv.
Qed.

Lemma command_is_truthy_terminal_witness :
  extract_command Json.loads (jlit "Listing. {'terminal': 'ls -la'}")
  = Ret (text "ls -la", PyNone).
Proof.
  apply (command_is_truthy_terminal Json.loads); [reflexivity|].
  exists {| m_start := 9; m_group := jlit "{'terminal': 'ls -la'}" |},
         [(lit "terminal", text "ls -la")].
  split_and!; reflexivity.
Defined.

(** X4: when the matched span does not decode, every field falls back to
    its default (no command, empty user id and action, no panel actions)
    and the message is the text in front of the span, trimmed: the reply
    from its first opening brace on is dropped. *)
Theorem undecodable_span_drops_tail
    (json_loads : str → option pyval) (raw : str) (jm : Match) :
  re_search raw = Some jm →
  json_loads (m_group jm) = None →
  extract_json_fields json_loads raw = (PyDict [], None)
  ∧ extract_command json_loads raw = Ret (PyNone, PyNone)
  ∧ extract_user_id json_loads raw = Ret (PyStr [])
  ∧ extract_action json_loads raw = Ret (PyStr [])
  ∧ extract_panel_actions json_loads raw = Ret (PyList [])
  ∧ extract_message json_loads raw
    = Ret (PyStr (strip (take (m_start jm) raw))).
Proof.
  intros Hm Hd. pose proof (fields_undecoded json_loads _ _ Hm Hd) as Hf.
  rewrite (extract_command_dict _ _ _ _ Hf), (extract_user_id_dict _ _ _ _ Hf),
    (extract_action_dict _ _ _ _ Hf), (extract_message_dict _ _ _ _ Hf), Hm.
  split_and!; try done. unfold extract_panel_actions. by rewrite Hf.
Qed.

Lemma undecodable_span_drops_tail_witness :
  extract_message Json.loads (lit "Use {curly} braces, then run it.")
  = Ret (text "Use").
Proof.
  destruct (undecodable_span_drops_tail Json.loads
              (lit "Use {curly} braces, then run it.")
              {| m_start := 4; m_group := lit "{curly}" |})
    as (_ & _ & _ & _ & _ & H); [reflexivity | reflexivity |]. exact H.
Defined.

(** ** Further properties of the classifier *)

Section token_facts.
Implicit Types (s tok ws rest acc : str) (c : char).

Lemma split_from_run acc tok :
forallb (λ a, negb (isspace a)) tok = true →
split_from acc tok = flush (acc ++ tok)
∧ ∀ c rest, isspace c = true →
    split_from acc (tok ++ c :: rest) = flush (acc ++ tok) ++ split_from [] rest.
Proof.
revert acc. induction tok as [|a tok IH]; intros acc Ht; simpl in *.
- rewrite app_nil_r. split; [done|]. by intros c rest ->.
- apply andb_true_iff in Ht as [Ha Ht]. apply negb_true_iff in Ha.
  rewrite Ha. destruct (IH (acc ++ [a]) Ht) as [H1 H2].
  rewrite <- app_assoc in H1, H2. done.
Qed.

Lemma split_from_leading ws s :
forallb isspace ws = true → split_from [] (ws ++ s) = split_from [] s.
Proof.
induction ws as [|a ws IH]; simpl; [done|].
intros [-> H]%andb_true_iff. by apply IH.
Qed.

Lemma is_dangerous_first_token s :
is_dangerous (PyStr s) = Ret (scan_tools (first_token s) dangerous_tools).
Proof. simpl. by rewrite base_of_first_token. Qed.
End token_facts.

(** X5: the classifier reads the first token only.  White space in front of
    it and everything from the first white space after it (arguments,
    further commands chained on the same line) leave the verdict as it is
    for the token alone. *)
Theorem is_dangerous_reads_first_token_only (ws tok rest : str) (c : char) :
  forallb isspace ws = true →
  tok ≠ [] →
  forallb (λ a, negb (isspace a)) tok = true →
  isspace c = true →
  first_token (ws ++ tok ++ c :: rest) = tok
  ∧ is_dangerous (PyStr (ws ++ tok ++ c :: rest)) = is_dangerous (PyStr tok).
Proof.
  intros Hws Hne Htok Hc.
  destruct (split_from_run [] tok Htok) as [H1 H2].
  assert (Hl : first_token (ws ++ tok ++ c :: rest) = tok).
  { unfold first_token, split. rewrite split_from_leading, H2 by done.
    simpl. by destruct tok. }
  assert (Hr : first_token tok = tok).
  { unfold first_token, split. rewrite H1. simpl. by destruct tok. }
  split; [done|]. by rewrite !is_dangerous_first_token, Hl, Hr.
Qed.

Lemma is_dangerous_reads_first_token_only_witness :
  is_dangerous (PyStr (lit "  ls /tmp; rm -rf /tmp/x"))
  = is_dangerous (PyStr (lit "ls")).
Proof.
  apply (is_dangerous_reads_first_token_only
           (lit "  ") (lit "ls") (lit "/tmp; rm -rf /tmp/x") 0x20%N);
    [reflexivity | discriminate | reflexivity | reflexivity].
Defined.

(** X6: a command is flagged only if its first token begins with one of the
    letters r, s, n, k, d, the initials of the denylist; a first token with
    another initial, a path such as [/bin/rm] for one, is never flagged. *)
Theorem is_dangerous_needs_denylist_initial (cmd : str) :
  (is_dangerous (PyStr cmd) = Ret true →
   ∃ c rest, first_token cmd = c :: rest ∧ c ∈ lit "rsnkd")
  ∧ (∀ c rest, first_token cmd = c :: rest → c ∉ lit "rsnkd" →
     is_dangerous (PyStr cmd) = Ret false).
Proof.
  assert (H : is_dangerous (PyStr cmd) = Ret true →
              ∃ c rest, first_token cmd = c :: rest ∧ c ∈ lit "rsnkd").
  { rewrite is_dangerous_first_token. intros Hs.
    assert (Hs' : scan_tools (first_token cmd) dangerous_tools = true)
      by congruence.
    apply scan_tools_true in Hs' as (tool & Hin & [k Hk]). rewrite Hk.
    vm_compute in Hin.
    repeat (apply elem_of_cons in Hin as [->|Hin];
            [eexists _, _; split; [reflexivity|];
             apply (bool_decide_unpack _); vm_compute; exact I|]).
    by apply elem_of_nil in Hin. }
  split; [done|]. intros c rest Hft Hc.
  rewrite is_dangerous_first_token in *.
  destruct (scan_tools _ _); [|done].
  destruct (H eq_refl) as (c' & rest' & Hft' & Hc'). congruence.
Qed.

Lemma is_dangerous_needs_denylist_initial_witness :
  is_dangerous (PyStr (lit "/bin/rm -rf /tmp/x")) = Ret false.
Proof.
  destruct (is_dangerous_needs_denylist_initial (lit "/bin/rm -rf /tmp/x"))
    as [_ H].
  apply (H 0x2F%N (lit "bin/rm")); [reflexivity|].
  apply (bool_decide_unpack _). vm_compute. exact I.
Defined.

(** ** Further properties of the approval gate *)

Section gate_more.
Variable others : nat → gset str → gset str.
Implicit Types (w : World) (k j n : nat).

Local Abbreviation waiting_line :=
(Print [text "[HITL] Waiting for approval..."]).
Local Abbreviation approved_line := (Print [text "[HITL] Approved!"]).
Local Abbreviation denied_line := (Print [text "[HITL] Denied!"]).

(** Up to any poll, either no marker has shown or there is a first poll
  that shows one. *)
Lemma first_marker w n :
(∀ j, j < n → quiet (sleeps others j w))
∨ ∃ k, k < n ∧ (∀ j, j < k → quiet (sleeps others j w))
       ∧ ¬ quiet (sleeps others k w).
Proof.
induction n as [|n [IH|(k & Hk & Hq & Hn)]].
- left. lia.
- destruct (decide (lock_file ∈ fs (sleeps others n w))) as [Hl|Hl].
  { right. exists n. split_and!; [lia | done |]. by intros [? _]. }
  destruct (decide (deny_file ∈ fs (sleeps others n w))) as [Hd|Hd].
  { right. exists n. split_and!; [lia | done |]. by intros [_ ?]. }
  left. intros j Hj. destruct (decide (j = n)) as [->|]; [done|].
  apply IH. lia.
- right. exists k. split_and!; [lia | done | done].
Qed.

(** X7: the gate's verdict always has its cause.  It returns approved only
  if the approved marker was there at the first poll that showed any
  marker, and then that marker is gone; it returns denied either because
  at that poll only the denied marker was there, which is then gone, or
  because 600 polls showed nothing, and then no file is touched.  It
  prints the waiting line, then one line for a verdict read from a marker
  and none for a timeout; the requests and runs so far are untouched. *)
Theorem gate_verdict_has_a_cause w b w' :
wait_for_approval others w = Done b w' →
∃ k,
  k ≤ 600 ∧ slept w' = slept w + k
  ∧ calls w' = calls w ∧ ran w' = ran w
  ∧ (∀ j, j < k → quiet (sleeps others j w))
  ∧ ((b = true ∧ k < 600
      ∧ lock_file ∈ fs (sleeps others k w)
      ∧ fs w' = fs (sleeps others k w) ∖ {[lock_file]}
      ∧ stdout w' = stdout w ++ [waiting_line; approved_line])
     ∨ (b = false ∧ k < 600
        ∧ (lock_file ∉ fs (sleeps others k w))
        ∧ deny_file ∈ fs (sleeps others k w)
        ∧ fs w' = fs (sleeps others k w) ∖ {[deny_file]}
        ∧ stdout w' = stdout w ++ [waiting_line; denied_line])
     ∨ (b = false ∧ k = 600
        ∧ fs w' = fs (sleeps others 600 w)
        ∧ stdout w' = stdout w ++ [waiting_line])).
Proof.
intros Hg.
destruct (first_marker w 600) as [Hq|(k & Hk & Hq & Hn)].
- rewrite gate_timeout in Hg by done. injection Hg as <- <-.
  destruct (nap_fields others 600 w) as (Ho & Hs & Hc & Hr).
  exists 600. split_and!; [lia | exact Hs | exact Hc | exact Hr | done |].
  right. right. split_and!; [done | done | apply fs_emit |].
  change (stdout (sleeps others 600 w) ++ [waiting_line]
          = stdout w ++ [waiting_line]). by rewrite Ho.
- rewrite (gate_skip others k w) in Hg by (done || lia).
  replace (601 - k) with (S (600 - k)) in Hg by lia.
  destruct (nap_fields others k w) as (Ho & Hs & Hc & Hr).
  exists k. split_and!; [lia| | | |done|].
  { destruct (decide (lock_file ∈ fs (sleeps others k w))) as [Hl|Hl];
      [rewrite wait_loop_approve in Hg by done
      |rewrite wait_loop_deny in Hg
         by (done || (destruct (decide (deny_file ∈ fs (sleeps others k w)));
                      [done | destruct Hn; by split]))];
      injection Hg as <- <-; exact Hs. }
  { destruct (decide (lock_file ∈ fs (sleeps others k w))) as [Hl|Hl];
      [rewrite wait_loop_approve in Hg by done
      |rewrite wait_loop_deny in Hg
         by (done || (destruct (decide (deny_file ∈ fs (sleeps others k w)));
                      [done | destruct Hn; by split]))];
      injection Hg as <- <-; exact Hc. }
  { destruct (decide (lock_file ∈ fs (sleeps others k w))) as [Hl|Hl];
      [rewrite wait_loop_approve in Hg by done
      |rewrite wait_loop_deny in Hg
         by (done || (destruct (decide (deny_file ∈ fs (sleeps others k w)));
                      [done | destruct Hn; by split]))];
      injection Hg as <- <-; exact Hr. }
  destruct (decide (lock_file ∈ fs (sleeps others k w))) as [Hl|Hl].
  + rewrite wait_loop_approve in Hg by done. injection Hg as <- <-.
    left. split_and!; [done | done | done | reflexivity |].
    change ((stdout (sleeps others k w) ++ [waiting_line]) ++ [approved_line]
            = stdout w ++ [waiting_line; approved_line]).
    by rewrite Ho, <- app_assoc.
  + assert (Hd : deny_file ∈ fs (sleeps others k w)).
    { destruct (decide (deny_file ∈ fs (sleeps others k w))); [done|].
      destruct Hn. by split. }
    rewrite wait_loop_deny in Hg by done. injection Hg as <- <-.
    right. left. split_and!; [done | done | done | done | reflexivity |].
    change ((stdout (sleeps others k w) ++ [waiting_line]) ++ [denied_line]
            = stdout w ++ [waiting_line; denied_line]).
    by rewrite Ho, <- app_assoc.
Qed.

End gate_more.

Lemma gate_verdict_has_a_cause_witness :
  ∃ k, k ≤ 600 ∧ slept (emit (Print [text "[HITL] Waiting for approval..."])
                          (sleeps idle 600 (fresh ∅))) = 0 + k.
Proof.
  destruct (gate_verdict_has_a_cause idle (fresh ∅) false
              (emit (Print [text "[HITL] Waiting for approval..."])
                 (sleeps idle 600 (fresh ∅)))) as (k & Hk & Hs & _).
  - apply gate_timeout. intros j _. unfold quiet. rewrite sleeps_idle.
    split; apply (bool_decide_unpack _); vm_compute; exact I.
  - exists k. split; [exact Hk | exact Hs].
Defined.


(** ** Further properties of the conversation loop *)

Section loop_more.
Variable json_loads : str → option pyval.
Variable others : nat → gset str → gset str.
Variable backend : nat → list pyval → str.
Variable shell : nat → pyval → gset str → proc * gset str.
Implicit Types (w : World) (msgs m : list pyval) (c : pyval) (hitl : bool).

Local Abbreviation pass := (iteration json_loads others backend shell).
Local Abbreviation loop := (main_loop json_loads others backend shell).
Local Abbreviation final := (emit_final json_loads).
Local Abbreviation reply w msgs := (backend (calls w) msgs).
Local Abbreviation heard w msgs :=
(msgs ++ [msg "assistant" (backend (calls w) msgs)]).
Local Abbreviation asking c :=
(Print [text "[HITL] APPROVAL_REQUIRED: "; c]).
Local Abbreviation executing c := (Print [text "[HITL] EXECUTING: "; c]).

(** The final output prints one line, or raises before printing. *)
Lemma final_cases raw w :
(∃ o, final raw w = Done () (emit o w)) ∨ (∃ e, final raw w = Fault e w).
Proof.
unfold emit_final. run.
destruct (extract_user_id _ _); [|by eauto].
destruct (extract_message _ _); [|by eauto].
destruct (extract_action _ _); [|by eauto].
destruct (extract_json_fields _ _) as [jf js].
destruct (truthy jf); [|by eauto].
destruct (py_get _ _ _); by eauto.
Qed.

Lemma is_dangerous_text c dng : is_dangerous c = Ret dng → is_text c = true.
Proof. by destruct c. Qed.

(** What one pass can do to the world and to the messages. *)
Lemma pass_step hitl msgs w :
∃ w1,
  world_of (pass hitl msgs w) = Some w1
  ∧ slept w1 ≤ slept w + 600
  ∧ (ran w1 = ran w ∨ ∃ c, is_text c = true ∧ ran w1 = ran w ++ [c])
  ∧ (hitl = false →
     slept w1 = slept w
     ∧ ((∀ n c f, (shell n c f).2 = f) → fs w1 = fs w)
     ∧ (∀ m, pass hitl msgs w = Done (Continue m) w1 → stdout w1 = stdout w)
     ∧ (stdout w1 = stdout w ∨ ∃ o, stdout w1 = stdout w ++ [o]))
  ∧ (∀ f, pass hitl msgs w = Done f w1 →
     f = Break (heard w msgs)
     ∨ ∃ content, f = Continue (heard w msgs ++ [msg "user" content])).
Proof.
destruct (extract_command json_loads (reply w msgs)) as [[c x]|e] eqn:H.
2: { rewrite (pass_parse_fault _ _ _ _ _ _ _ _ H). exists (called w).
     split_and!; simpl; try done; [lia | by left | ].
     intros _. split_and!; try done. by left. }
destruct (truthy c) eqn:Hc.
- destruct (is_dangerous c) as [dng|e] eqn:Hd.
  2: { rewrite (pass_classify_fault _ _ _ _ _ _ _ _ _ _ H Hc Hd).
       exists (called w). split_and!; simpl; try done; [lia | by left | ].
       intros _. split_and!; try done. by left. }
  pose proof (is_dangerous_text _ _ Hd) as Htext.
  destruct (dng && hitl) eqn:Hg.
  + destruct (gate_total others (emit (asking c) (called w)))
      as (ok & w2 & Hw & Hs & _ & Hr & _).
    rewrite (pass_gate _ _ _ _ _ _ _ _ _ _ _ _ H Hc Hd Hg Hw).
    assert (hitl = true) as -> by (by destruct dng, hitl).
    destruct ok.
    * eexists. split; [reflexivity|]. simpl in *.
      split_and!; [lia | right; exists c; by rewrite Hr | done |].
      intros f [= <-]. right. eauto.
    * exists w2. split; [reflexivity|]. simpl in *.
      split_and!; [lia | by left | done |].
      intros f [= <-]. right. by eexists.
  + rewrite (pass_exec _ _ _ _ _ _ _ _ _ _ H Hc Hd Hg).
    eexists. split; [reflexivity|]. simpl.
    split_and!; [lia | right; by exists c | |].
    * intros _.
      split_and!; [done | intros Hsh; apply Hsh | done | by left].
    * intros f [= <-]. right. eauto.
- rewrite (pass_final _ _ _ _ _ _ _ _ _ H Hc).
  destruct (final_cases (reply w msgs) (called w)) as [[o ->]|[e ->]].
  + eexists. split; [reflexivity|]. simpl.
    split_and!; [lia | by left | |].
    * intros _. split_and!; try done. right. by exists o.
    * intros f [= <-]. by left.
  + eexists. split; [reflexivity|]. simpl.
    split_and!; [lia | by left | | done].
    intros _. split_and!; try done. by left.
Qed.

(** What a run of the loop can do, by induction on its turns. *)
Lemma loop_frame hitl fuel iters msgs w w' :
world_of (loop hitl fuel iters msgs w) = Some w' →
slept w' ≤ slept w + 600 * (max_iters - iters)
∧ (∃ cmds, ran w' = ran w ++ cmds
           ∧ length cmds ≤ max_iters - iters
           ∧ Forall (λ c, is_text c = true) cmds)
∧ (hitl = false →
   slept w' = slept w
   ∧ ((∀ n c f, (shell n c f).2 = f) → fs w' = fs w)
   ∧ (stdout w' = stdout w ∨ ∃ o, stdout w' = stdout w ++ [o]))
∧ (∀ m, loop hitl fuel iters msgs w = Done m w' →
   msgs `prefix_of` m
   ∧ length m ≤ length msgs + 2 * (max_iters - iters)).
Proof.
revert iters msgs w. induction fuel as [|fuel IH]; intros iters msgs w;
  [done|].
destruct (decide (max_iters ≤ iters)) as [Hi|Hi].
{ rewrite loop_exhausted by done. intros [= <-].
  split_and!;
    [lia | exists []; split_and!; [by rewrite app_nil_r | simpl; lia | done]
    | | ].
  - intros _. split_and!; try done. by left.
  - intros m [= <-]. split; [done|lia]. }
rewrite loop_unfold by lia.
destruct (pass_step hitl msgs w) as (w1 & Hw1 & Hs & Hr & Hoff & Hm).
destruct (pass hitl msgs w) as [[m1|m1] w1'|e w1'|] eqn:Hp;
  simpl in Hw1; try done; injection Hw1 as ->.
- (* the pass continues *)
  intros Hw'. destruct (IH _ _ _ Hw') as (Hs' & (cmds & Hr' & Hl & Ht) & Hoff' & Hm').
  split_and!.
  + unfold max_iters in *. lia.
  + destruct Hr as [Hr|(c & Hc & Hr)]; rewrite Hr in Hr'.
    * exists cmds. split_and!; [done | lia | done].
    * exists (c :: cmds). rewrite <- app_assoc in Hr'.
      split_and!; [done | simpl; unfold max_iters in *; lia | by constructor].
  + intros ->. destruct (Hoff eq_refl) as (Hs0 & Hf0 & Ho0 & _).
    destruct (Hoff' eq_refl) as (Hs1 & Hf1 & Ho1).
    rewrite (Ho0 _ eq_refl) in Ho1.
    split_and!; [lia | | done].
    intros Hsh. rewrite Hf1, Hf0; done.
  + intros m Hl'. destruct (Hm' m Hl') as [Hpre Hlen].
    destruct (Hm _ eq_refl) as [|[content [= ->]]]; [done|].
    split.
    * etrans; [|exact Hpre]. rewrite <- app_assoc. by apply prefix_app_r.
    * rewrite !length_app in Hlen. simpl in Hlen.
      unfold max_iters in *. lia.
- (* the pass breaks *)
  intros [= <-].
  split_and!.
  + unfold max_iters in *. lia.
  + destruct Hr as [Hr|(c & Hc & Hr)]; rewrite Hr.
    * exists []. split_and!; [by rewrite app_nil_r | simpl; lia | done].
    * exists [c]. split_and!;
        [done | simpl; unfold max_iters in *; lia | by constructor].
  + intros ->. destruct (Hoff eq_refl) as (Hs0 & Hf0 & _ & Ho0). done.
  + intros m [= <-]. destruct (Hm _ eq_refl) as [[= ->]|[content ?]];
      [|done].
    split; [by apply prefix_app_r|].
    rewrite length_app. simpl. unfold max_iters in *. lia.
- (* the pass raises *)
  intros [= <-].
  split_and!.
  + unfold max_iters in *. lia.
  + destruct Hr as [Hr|(c & Hc & Hr)]; rewrite Hr.
    * exists []. split_and!; [by rewrite app_nil_r | simpl; lia | done].
    * exists [c]. split_and!;
        [done | simpl; unfold max_iters in *; lia | by constructor].
  + intros ->. destruct (Hoff eq_refl) as (Hs0 & Hf0 & _ & Ho0). done.
  + done.
Qed.

Local Abbreviation run := (main json_loads others backend shell).

(** [main] raises on a history that cannot be iterated, and otherwise runs
  the loop on the assembled messages. *)
Lemma main_cases sys umsg history hitl w :
(py_extend [msg "system" sys] history = Raise TypeError
 ∧ run sys umsg history hitl w = Fault TypeError w)
∨ ∃ init,
    py_extend [msg "system" sys] history = Ret init
    ∧ run sys umsg history hitl w
      = loop hitl 6 0 (init ++ [msg "user" umsg]) w.
Proof.
unfold main.
destruct history; simpl; (by left) || (right; by eexists).
Qed.

(** X9: the conversation only grows.  A pass that ends the loop has
  appended the reply as an assistant message; a pass that continues has
  appended the reply and after it exactly one user message; so the
  messages the loop ends with start with the messages it was given, and
  are at most two more for each turn left in the budget. *)
Theorem conversation_only_grows hitl :
(∀ msgs w f w',
   pass hitl msgs w = Done f w' →
   f = Break (heard w msgs)
   ∨ ∃ content, f = Continue (heard w msgs ++ [msg "user" content]))
∧ (∀ fuel iters msgs w m w',
     loop hitl fuel iters msgs w = Done m w' →
     msgs `prefix_of` m
     ∧ length m ≤ length msgs + 2 * (max_iters - iters)).
Proof.
split.
- intros msgs w f w' Hp.
  destruct (pass_step hitl msgs w) as (w1 & Hw1 & _ & _ & _ & Hm).
  rewrite Hp in Hw1. injection Hw1 as <-. by apply Hm.
- intros fuel iters msgs w m w' Hl.
  eapply loop_frame; [|exact Hl]. by rewrite Hl.
Qed.

(** X10: one invocation is bounded in what it does, however it ends: at
  most 5 requests to the backend, at most 5 commands handed to the shell,
  every one of them a text, and at most 5 times 600 sleeps in the
  gate. *)
Theorem invocation_is_bounded sys umsg history hitl w w' :
world_of (run sys umsg history hitl w) = Some w' →
calls w' ≤ calls w + 5
∧ slept w' ≤ slept w + 3000
∧ ∃ cmds, ran w' = ran w ++ cmds
          ∧ length cmds ≤ 5
          ∧ Forall (λ c, is_text c = true) cmds.
Proof.
destruct (main_cases sys umsg history hitl w)
  as [[_ ->]|(init & _ & ->)].
- intros [= <-]. split_and!; [lia | lia |].
  exists []. split_and!; [by rewrite app_nil_r | simpl; lia | done].
- intros Hw.
  destruct (loop_total json_loads others backend shell hitl 5 6 0
              (init ++ [msg "user" umsg]) w) as (w1 & Hw1 & Hc);
    [done | lia |].
  rewrite Hw in Hw1. injection Hw1 as <-.
  destruct (loop_frame _ _ _ _ _ _ Hw) as (Hs & Hr & _).
  split_and!; [exact Hc | exact Hs | exact Hr].
Qed.

(** X11: with oversight switched off the gate is never entered: the run
  never sleeps, prints nothing but (at most) the final output, leaves the
  filesystem to the shell alone, and hands every text command it extracts
  to the shell, whatever the classifier says of it. *)
Theorem without_oversight_nothing_is_gated :
(∀ sys umsg history w w',
   world_of (run sys umsg history false w) = Some w' →
   slept w' = slept w
   ∧ (stdout w' = stdout w ∨ ∃ o, stdout w' = stdout w ++ [o])
   ∧ ((∀ n c f, (shell n c f).2 = f) → fs w' = fs w))
∧ (∀ msgs w s x,
     extract_command json_loads (reply w msgs) = Ret (PyStr s, x) →
     s ≠ [] →
     ∃ m, pass false msgs w
          = Done (Continue m) (shelled shell (PyStr s) (called w))).
Proof.
split.
- intros sys umsg history w w'.
  destruct (main_cases sys umsg history false w)
    as [[_ ->]|(init & _ & ->)].
  + intros [= <-]. split_and!; [done | by left | done].
  + intros Hw. destruct (loop_frame _ _ _ _ _ _ Hw) as (_ & _ & Hoff & _).
    destruct (Hoff eq_refl) as (Hs & Hf & Ho). done.
- intros msgs w s x Hc Hs.
  assert (Ht : truthy (PyStr s) = true) by (by destruct s).
  destruct (is_dangerous (PyStr s)) as [dng|e] eqn:Hd.
  + eexists. eapply pass_exec; [exact Hc | exact Ht | exact Hd |].
    apply andb_false_r.
  + rewrite is_dangerous_first_token in Hd. done.
Qed.

(** X12: a reply without fields (no span at all, a span that does not
  decode, or one that decodes to the empty object) ends the loop in its
  pass: the text in front of the span, or the whole reply when there is
  no span, is printed trimmed and as plain text, and nothing is run. *)
Theorem reply_without_fields_is_printed_plain hitl msgs w :
(re_search (reply w msgs) = None
 ∨ ∃ jm, re_search (reply w msgs) = Some jm
         ∧ (json_loads (m_group jm) = None
            ∨ json_loads (m_group jm) = Some (PyDict []))) →
pass hitl msgs w
= Done (Break (heard w msgs))
    (emit (Print [PyStr (strip match re_search (reply w msgs) with
                               | Some jm => take (m_start jm) (reply w msgs)
                               | None => reply w msgs
                               end)])
       (called w)).
Proof.
intros Hcase.
assert (∃ o, extract_json_fields json_loads (reply w msgs) = (PyDict [], o))
  as [o Hf].
{ destruct Hcase as [Hn|(jm & Hm & [Hl|Hl])].
  - eexists. by apply fields_no_match.
  - eexists. by eapply fields_undecoded.
  - eexists. by eapply fields_decoded. }
assert (Hc := extract_command_dict json_loads _ _ _ Hf). simpl in Hc.
rewrite (pass_final json_loads others backend shell hitl msgs w _ _ Hc)
  by done.
destruct (final_dict json_loads _ _ _ (called w) Hf)
  as (uid & mv & act & _ & Hm & _ & ->).
rewrite (extract_message_dict _ _ _ _ Hf) in Hm. simpl in Hm.
injection Hm as <-. done.
Qed.

(** X13: [main] opens the conversation with the system prompt, then the
  history in its order, then the user's message, and whatever the loop
  returns still starts with them; a history that decoded to [null], a
  boolean or a number makes [main] raise [TypeError] before the backend
  is called once. *)
Theorem main_opens_with_prompt_history_message sys umsg hitl w :
(∀ h m w',
   run sys umsg (PyList h) hitl w = Done m w' →
   ([msg "system" sys] ++ h ++ [msg "user" umsg]) `prefix_of` m)
∧ (∀ history, is_text history = false →
     (∀ h, history ≠ PyList h) → (∀ d, history ≠ PyDict d) →
     run sys umsg history hitl w = Fault TypeError w).
Proof.
split.
- intros h m w'.
  destruct (main_cases sys umsg (PyList h) hitl w)
    as [[? _]|(init & Hi & ->)]; [done|].
  injection Hi as <-. intros Hl. rewrite app_assoc.
  assert (Hw := f_equal world_of Hl). simpl in Hw.
  destruct (loop_frame _ _ _ _ _ _ Hw) as (_ & _ & _ & Hm).
  by apply Hm.
- intros history Ht Hl Hd. unfold main.
  destruct history; simpl in *; try done.
  + by destruct (Hl l).
  + by destruct (Hd d).
Qed.

(** X14: a command made of white space only is not the absence of a
  command: it is not empty, so it is extracted; it has no first token, so
  it is classified harmless; and it is handed to the shell without the
  gate, oversight enabled or not. *)
Theorem blank_command_is_still_run hitl msgs w s x :
extract_command json_loads (reply w msgs) = Ret (PyStr s, x) →
s ≠ [] →
forallb isspace s = true →
is_dangerous (PyStr s) = Ret false
∧ pass hitl msgs w
  = Done (Continue
            (heard w msgs ++
             [msg "user"
                (feedback (shell (length (ran w)) (PyStr s) (fs w)).1)]))
      (shelled shell (PyStr s) (called w)).
Proof.
intros Hc Hs Hb.
assert (Hd : is_dangerous (PyStr s) = Ret false).
{ rewrite is_dangerous_first_token. unfold first_token.
  apply strip_nil_iff, split_nil_iff in Hb. by rewrite Hb. }
split; [done|].
eapply pass_exec; [exact Hc | by destruct s | exact Hd | done].
Qed.
End loop_more.

(** ** The further loop properties at concrete replies *)

Lemma conversation_only_grows_witness :
  ∃ m w',
    main_loop Json.loads idle
      (scripted [jlit "{'terminal': 'ls'}"; jlit "{'message': 'done'}"])
      (shell_says (lit "a.txt")) false 6 0
      [msg "user" (lit "list files")] (fresh ∅) = Done m w'
    ∧ [msg "user" (lit "list files")] `prefix_of` m
    ∧ length m ≤ length [msg "user" (lit "list files")] + 2 * (max_iters - 0).
Proof.
  eexists _, _. split; [vm_compute; reflexivity|].
  eapply (proj2 (conversation_only_grows Json.loads idle
                   (scripted [jlit "{'terminal': 'ls'}";
                              jlit "{'message': 'done'}"])
                   (shell_says (lit "a.txt")) false) 6 0
            [msg "user" (lit "list files")] (fresh ∅)).
  vm_compute. reflexivity.
Defined.

Lemma invocation_is_bounded_witness :
  ∃ w',
    world_of (main Json.loads idle
                (scripted [jlit "{'terminal': 'ls'}"; jlit "{'terminal': 5}"])
                (shell_says (lit "a.txt")) (lit "You are Agent")
                (lit "list files") (PyList []) true (fresh ∅)) = Some w'
    ∧ calls w' ≤ 0 + 5 ∧ slept w' ≤ 0 + 3000.
Proof.
  edestruct (invocation_is_bounded Json.loads idle
               (scripted [jlit "{'terminal': 'ls'}"; jlit "{'terminal': 5}"])
               (shell_says (lit "a.txt")) (lit "You are Agent")
               (lit "list files") (PyList []) true (fresh ∅))
    as (Hc & Hs & _); [vm_compute; reflexivity|].
  eexists. split; [vm_compute; reflexivity|]. split; [exact Hc | exact Hs].
Defined.

Lemma without_oversight_nothing_is_gated_witness :
  ∃ m,
    iteration Json.loads idle (scripted [jlit "{'terminal': 'rm -rf /tmp/x'}"])
      (shell_says []) false [] (fresh ∅)
    = Done (Continue m)
        (shelled (shell_says []) (text "rm -rf /tmp/x") (called (fresh ∅))).
Proof.
  eapply (proj2 (without_oversight_nothing_is_gated Json.loads idle
                   (scripted [jlit "{'terminal': 'rm -rf /tmp/x'}"])
                   (shell_says [])) [] (fresh ∅) (lit "rm -rf /tmp/x") PyNone);
    [vm_compute; reflexivity | discriminate].
Defined.

Lemma reply_without_fields_is_printed_plain_witness :
  iteration Json.loads idle (scripted [lit "  Nothing to do.  "])
    (shell_says []) true [] (fresh ∅)
  = Done (Break [msg "assistant" (lit "  Nothing to do.  ")])
      (emit (Print [text "Nothing to do."]) (called (fresh ∅))).
Proof.
  apply (reply_without_fields_is_printed_plain Json.loads idle
           (scripted [lit "  Nothing to do.  "]) (shell_says []) true []
           (fresh ∅)).
  left. reflexivity.
Defined.

Lemma main_opens_with_prompt_history_message_witness :
  main Json.loads idle (scripted [jlit "{'message': 'hi'}"]) (shell_says [])
    (lit "You are Agent") (lit "hello") (PyBool true) false (fresh ∅)
  = Fault TypeError (fresh ∅).
Proof.
  apply (proj2 (main_opens_with_prompt_history_message Json.loads idle
                  (scripted [jlit "{'message': 'hi'}"]) (shell_says [])
                  (lit "You are Agent") (lit "hello") false (fresh ∅)));
    [reflexivity | discriminate | discriminate].
Defined.

Lemma blank_command_is_still_run_witness :
  ∃ m,
    iteration Json.loads idle (scripted [jlit "{'terminal': '   '}"])
      (shell_says []) true [] (fresh ∅)
    = Done (Continue m) (shelled (shell_says []) (text "   ") (called (fresh ∅))).
Proof.
  eexists.
  apply (blank_command_is_still_run Json.loads idle
           (scripted [jlit "{'terminal': '   '}"]) (shell_says []) true []
           (fresh ∅) (lit "   ") PyNone);
    [vm_compute; reflexivity | discriminate | reflexivity].
Defined.
